(** * A model of [DBHandler] from [database.py] (covid-19-api)

    Python dictionaries preserve insertion order, so they are modelled as
    association lists; the MongoDB collection is the ordered list of its
    [page] sub-documents; exceptions are an explicit result type.  The static
    taxonomy of [constants.py] is a configuration record, and the engines the
    module only calls (the MongoDB sort, Elasticsearch, [datetime]) are
    parameters of the development. *)

From Stdlib Require Import String Ascii List ZArith QArith Bool Lia Permutation Sorted.
Import ListNotations.

Local Open Scope string_scope.
Local Open Scope list_scope.

(** ** Python values *)

Inductive exn := KeyError | IndexError | ValueError.

Inductive result (A : Type) : Type :=
| Ok (a : A)
| Err (e : exn).
Arguments Ok {A} a.
Arguments Err {A} e.

Definition bind {A B} (m : result A) (k : A -> result B) : result B :=
  match m with Ok a => k a | Err e => Err e end.

Notation "x <- m ;; k" := (bind m (fun x => k))
  (at level 61, m at next level, right associativity).

Definition fmap {A B} (f : A -> B) (m : result A) : result B :=
  match m with Ok a => Ok (f a) | Err e => Err e end.

(** [d[k]]: a missing key raises [KeyError]. *)
Definition get_key {A} (o : option A) : result A :=
  match o with Some a => Ok a | None => Err KeyError end.

Fixpoint mapM {A B} (f : A -> result B) (l : list A) : result (list B) :=
  match l with
  | [] => Ok []
  | x :: l' => y <- f x ;; ys <- mapM f l' ;; Ok (y :: ys)
  end.

(** A dict with string keys, in insertion order. *)
Definition dict (V : Type) := list (string * V).

Fixpoint lookup {V} (k : string) (d : dict V) : option V :=
  match d with
  | [] => None
  | (k', v) :: d' => if String.eqb k k' then Some v else lookup k d'
  end.

(** [d.get(k, default)] *)
Definition dict_get {V} (k : string) (d : dict V) (default : V) : V :=
  match lookup k d with Some v => v | None => default end.

(** [k in d] *)
Definition dict_mem {V} (k : string) (d : dict V) : bool :=
  match lookup k d with Some _ => true | None => false end.

(** [d[k] = v]: overwrite in place, or append a new key. *)
Fixpoint dict_set {V} (k : string) (v : V) (d : dict V) : dict V :=
  match d with
  | [] => [(k, v)]
  | (k', v') :: d' =>
      if String.eqb k k' then (k', v) :: d' else (k', v') :: dict_set k v d'
  end.

(** A dict keyed by [(str, str)] pairs, as the translation tables are. *)
Fixpoint lookup2 {V} (k : string * string) (d : list ((string * string) * V))
  : option V :=
  match d with
  | [] => None
  | ((a, b), v) :: d' =>
      if String.eqb (fst k) a && String.eqb (snd k) b then Some v
      else lookup2 k d'
  end.

Definition dict2_get {V} k (d : list ((string * string) * V)) (default : V) : V :=
  match lookup2 k d with Some v => v | None => default end.

Definition str_mem (x : string) (l : list string) : bool :=
  existsb (String.eqb x) l.

(** Truthiness of a [str]. *)
Definition nonempty (s : string) : bool := negb (String.eqb s "").

(** Floats compared with [>]: the classifier scores are modelled as
    rationals, which have the same order. *)
Definition Qgtb (x y : Q) : bool := negb (Qle_bool x y).

(** A [str] is modelled by its UTF-8 encoding. *)

(** The code points for which [str.isspace()] holds, the whitespace that
    [str.strip()] removes: bidirectional class WS, B or S, or category Zs. *)
Definition py_whitespace : list N :=
  [9; 10; 11; 12; 13; 28; 29; 30; 31; 32; 133; 160; 5760;
   8192; 8193; 8194; 8195; 8196; 8197; 8198; 8199; 8200; 8201; 8202;
   8232; 8233; 8239; 8287; 12288]%N.

Definition py_isspace (n : N) : bool := existsb (N.eqb n) py_whitespace.

(** The UTF-8 encoding of a code point. *)
Definition utf8_encode (n : N) : list ascii :=
  if (n <? 128)%N then [ascii_of_N n]
  else if (n <? 2048)%N then
    [ascii_of_N (192 + n / 64); ascii_of_N (128 + n mod 64)]
  else if (n <? 65536)%N then
    [ascii_of_N (224 + n / 4096); ascii_of_N (128 + (n / 64) mod 64);
     ascii_of_N (128 + n mod 64)]
  else
    [ascii_of_N (240 + n / 262144); ascii_of_N (128 + (n / 4096) mod 64);
     ascii_of_N (128 + (n / 64) mod 64); ascii_of_N (128 + n mod 64)].

Definition is_cont (b : ascii) : bool :=
  ((128 <=? N_of_ascii b) && (N_of_ascii b <? 192))%N.

(** Whitespace encoded in one, two or three bytes (no whitespace character
    needs four). *)
Definition space1 (a : ascii) : bool :=
  (N_of_ascii a <? 128)%N && py_isspace (N_of_ascii a).

Definition space2 (a b : ascii) : bool :=
  ((194 <=? N_of_ascii a) && (N_of_ascii a <? 224))%N && is_cont b
  && py_isspace ((N_of_ascii a - 192) * 64 + (N_of_ascii b - 128))%N.

Definition space3 (a b c : ascii) : bool :=
  let n := ((N_of_ascii a - 224) * 4096 + (N_of_ascii b - 128) * 64
            + (N_of_ascii c - 128))%N in
  ((224 <=? N_of_ascii a) && (N_of_ascii a <? 240))%N && is_cont b && is_cont c
  && (2048 <=? n)%N && py_isspace n.

(** Drop the leading whitespace characters. *)
Fixpoint drop_spaces (l : list ascii) : list ascii :=
  match l with
  | [] => []
  | a :: l1 =>
      if space1 a then drop_spaces l1 else
      match l1 with
      | [] => l
      | b :: l2 =>
          if space2 a b then drop_spaces l2 else
          match l2 with
          | [] => l
          | c :: l3 => if space3 a b c then drop_spaces l3 else l
          end
      end
  end.

(** Drop the trailing whitespace characters of a string given reversed. *)
Fixpoint drop_spaces_rev (l : list ascii) : list ascii :=
  match l with
  | [] => []
  | c :: l1 =>
      if space1 c then drop_spaces_rev l1 else
      match l1 with
      | [] => l
      | b :: l2 =>
          if space2 b c then drop_spaces_rev l2 else
          match l2 with
          | [] => l
          | a :: l3 => if space3 a b c then drop_spaces_rev l3 else l
          end
      end
  end.

(** [str.strip()] *)
Definition strip (s : string) : string :=
  string_of_list_ascii
    (rev (drop_spaces_rev (rev (drop_spaces (list_ascii_of_string s))))).

(** ** The static taxonomy of [constants.py] *)

Record Config := {
  ITOPICS : list string;
  ITOPIC_ETOPIC_MAP : dict string;
  ETOPIC_ITOPICS_MAP : dict (list string);
  ECOUNTRY_ICOUNTRIES_MAP : dict (list string);
  ETOPIC_TRANS_MAP : list ((string * string) * string);
  ECOUNTRY_TRANS_MAP : list ((string * string) * string);
  SCORE_THRESHOLD : Q;
  RUMOR_THRESHOLD : Q;
  USEFUL_THRESHOLD : Q
}.

(** ** Documents *)

(** A [{'title': ..., 'timestamp': ...}] object of the input. *)
Record titled := { title : string; timestamp : string }.

(** The input page record read from the line-delimited JSON file. *)
Record document := {
  d_classes_is_about_COVID_19 : Z;      (* document['classes']['is_about_COVID-19'] *)
  d_classes_is_clear : Z;               (* document['classes']['is_clear'] *)
  d_country : string;
  d_orig : titled;
  d_ja_translated : titled;
  d_en_translated : titled;
  d_url : string;
  d_classes_bert : dict Q;
  d_snippets : dict (list string);
  d_snippets_en : dict (list string);
  d_domain : option string;
  d_domain_label : option string;
  d_domain_label_en : option string
}.

Record orig_t := { o_title : string; o_timestamp : string; o_simple_timestamp : string }.
Record translated_t := { t_title : string; t_timestamp : string }.

(** The stored [page] sub-document.  Fields that [update_page] does not set
    are optional: a page it creates through [upsert=True] lacks them. *)
Record page := {
  country : option string;
  displayed_country : string;
  orig : option orig_t;
  ja_translated : option translated_t;
  en_translated : option translated_t;
  url : string;
  topics : dict Q;
  ja_snippets : option (dict string);
  en_snippets : option (dict string);
  is_checked : Z;
  is_about_COVID_19 : Z;
  is_useful : Z;
  is_clear : option Z;
  is_about_false_rumor : Z;
  domain : option string;
  ja_domain_label : option string;
  en_domain_label : option string
}.

(** One line of the category-check log. *)
Record updated := {
  u_url : string;
  u_is_about_COVID_19 : Z;
  u_is_useful : Z;
  u_is_about_false_rumor : Z;
  u_new_country : string;
  u_new_topics : list string;
  u_notes : string;
  u_time : string
}.

(** The state the handler acts on: the collection and the log files. *)
Record world := {
  collection : list page;
  files : string -> list updated
}.

(** A computation on the world that may raise; a raise keeps the writes
    done before it. *)
Definition M (A : Type) := world -> result A * world.

(** [collection.find_one({'page.url': u})] *)
Fixpoint find_one (u : string) (c : list page) : option page :=
  match c with
  | [] => None
  | p :: c' => if String.eqb (url p) u then Some p else find_one u c'
  end.

(** [collection.update_one({'page.url': u}, ...)] on the first match. *)
Fixpoint update_first (u : string) (f : page -> page) (c : list page) : list page :=
  match c with
  | [] => []
  | p :: c' => if String.eqb (url p) u then f p :: c' else p :: update_first u f c'
  end.

Definition set_collection (c : list page) (w : world) : world :=
  {| collection := c; files := files w |}.

Section Handler.

Variable cfg : Config.

(** [datetime.fromisoformat(ts).date().isoformat()]: [None] when [ts] is not
    an ISO-8601 timestamp ([ValueError]). *)
Variable fromisoformat_date : string -> option string.

(** ** [upsert_page] *)

(** The loop "Find a general snippet": the first topic of [ITOPICS] that is a
    key of [snippets] decides, and the scan stops there. *)
Fixpoint find_general_snippet (itopics : list string) (snippets : dict (list string))
  : string :=
  match itopics with
  | [] => ""
  | itopic :: rest =>
      match lookup itopic snippets with
      | Some l => match l with s :: _ => s | [] => "" end
      | None => find_general_snippet rest snippets
      end
  end.

(** The body of the "Reshape snippets" loop for one topic. *)
Definition reshaped_snippet (general_snippet : string) (snippets : dict (list string))
    (itopic : string) : string :=
  match dict_get itopic snippets [] with
  | s :: _ =>
      if nonempty s then strip s
      else if nonempty general_snippet then general_snippet else ""
  | [] => if nonempty general_snippet then general_snippet else ""
  end.

Definition reshape_snippets (snippets : dict (list string)) : dict string :=
  let general_snippet := find_general_snippet (ITOPICS cfg) snippets in
  fold_left
    (fun reshaped itopic =>
       dict_set itopic (reshaped_snippet general_snippet snippets itopic) reshaped)
    (ITOPICS cfg) [].

(** [sorted(..., key=lambda x: x[1], reverse=True)]: stable, so equal scores
    keep their order. *)
Fixpoint insert_desc (x : string * Q) (l : list (string * Q)) : list (string * Q) :=
  match l with
  | [] => [x]
  | y :: l' => if Qle_bool (snd y) (snd x) then x :: y :: l' else y :: insert_desc x l'
  end.

Fixpoint sort_desc (l : list (string * Q)) : list (string * Q) :=
  match l with
  | [] => []
  | x :: l' => insert_desc x (sort_desc l')
  end.

(** The loop after the first item: keep while [score > SCORE_THRESHOLD],
    then [break]. *)
Fixpoint keep_above (l : list (string * Q)) : list (string * Q) :=
  match l with
  | [] => []
  | (topic, score) :: l' =>
      if Qgtb score (SCORE_THRESHOLD cfg) then (topic, score) :: keep_above l' else []
  end.

(** Lines 77-85.  The keys of a dict are distinct, so each [topics[topic] =]
    of the loop adds a new key. *)
Definition select_topics (classes_bert : dict Q) : dict Q :=
  let topics_to_score :=
    filter (fun kv => str_mem (fst kv) (ITOPICS cfg) && Qgtb (snd kv) (1 # 2))
      classes_bert in
  match sort_desc topics_to_score with
  | [] => []
  | first :: rest => first :: keep_above rest
  end.

(** Lines 55-115: validation and derivation of [document_]; [Ok None] is the
    early [return]. *)
Definition make_document (d : document) : result (option page) :=
  let is_about_covid_19 := d_classes_is_about_COVID_19 d in
  let country_ := d_country d in
  if negb (nonempty (title (d_orig d))) then Ok None else
  simple_timestamp <- (match fromisoformat_date (timestamp (d_orig d)) with
                       | Some s => Ok s
                       | None => Err ValueError
                       end) ;;
  let orig_ := {| o_title := strip (title (d_orig d));
                  o_timestamp := timestamp (d_orig d);
                  o_simple_timestamp := simple_timestamp |} in
  if negb (nonempty (title (d_ja_translated d))) then Ok None else
  let ja_translated_ := {| t_title := strip (title (d_ja_translated d));
                           t_timestamp := timestamp (d_ja_translated d) |} in
  if negb (nonempty (title (d_en_translated d))) then Ok None else
  let en_translated_ := {| t_title := strip (title (d_en_translated d));
                           t_timestamp := timestamp (d_en_translated d) |} in
  let url_ := d_url d in
  let topics_ := select_topics (d_classes_bert d) in
  let ja_snippets_ := reshape_snippets (d_snippets d) in
  let en_snippets_ := reshape_snippets (d_snippets_en d) in
  let is_checked_ := 0%Z in
  useful_score <- get_key (lookup "is_useful" (d_classes_bert d)) ;;
  let is_useful_ := if Qgtb useful_score (USEFUL_THRESHOLD cfg) then 1%Z else 0%Z in
  let is_clear_ := d_classes_is_clear d in
  rumor_score <- get_key (lookup "is_about_false_rumor" (d_classes_bert d)) ;;
  let is_about_false_rumor_ :=
    if Qgtb rumor_score (RUMOR_THRESHOLD cfg) then 1%Z else 0%Z in
  let domain_ := match d_domain d with Some s => s | None => "" end in
  let ja_domain_label_ := match d_domain_label d with Some s => s | None => "" end in
  let en_domain_label_ := match d_domain_label_en d with Some s => s | None => "" end in
  Ok (Some {| country := Some country_;
              displayed_country := country_;
              orig := Some orig_;
              ja_translated := Some ja_translated_;
              en_translated := Some en_translated_;
              url := url_;
              topics := topics_;
              ja_snippets := Some ja_snippets_;
              en_snippets := Some en_snippets_;
              is_checked := is_checked_;
              is_about_COVID_19 := is_about_covid_19;
              is_useful := is_useful_;
              is_clear := Some is_clear_;
              is_about_false_rumor := is_about_false_rumor_;
              domain := Some domain_;
              ja_domain_label := Some ja_domain_label_;
              en_domain_label := Some en_domain_label_ |}).

(** Lines 117-125: the upsert rule.  [existing_page] is a non-empty dict, so
    it is truthy; the stored timestamp is read with [[...]] and compared as a
    [str]. *)
Definition upsert_rule (new_timestamp : string) (document_ : page) : M unit :=
  fun w =>
    let u := url document_ in
    match find_one u (collection w) with
    | Some existing_page =>
        match orig existing_page with
        | None => (Err KeyError, w)
        | Some eo =>
            if String.ltb (o_timestamp eo) new_timestamp
            then (Ok tt, set_collection (update_first u (fun _ => document_) (collection w)) w)
            else (Ok tt, w)
        end
    | None => (Ok tt, set_collection (collection w ++ [document_]) w)
    end.

(** [DBHandler.upsert_page]: nothing is written before the upsert rule, so a
    raise or an early return leaves the world as it was. *)
Definition upsert_page (d : document) : M unit :=
  fun w =>
    match make_document d with
    | Err e => (Err e, w)
    | Ok None => (Ok tt, w)
    | Ok (Some document_) => upsert_rule (timestamp (d_orig d)) document_ w
    end.


(** ** The output view: [reshape_page] *)

Record topic_view := { name : string; snippet : string; relatedness : Q }.

(** The page as returned to callers, for one language. *)
Record view := {
  v_country : option string;
  v_displayed_country : string;
  v_orig : option orig_t;
  v_url : string;
  v_topics : list topic_view;
  v_translated : translated_t;
  v_domain_label : string;
  v_is_checked : Z;
  v_is_about_COVID_19 : Z;
  v_is_useful : Z;
  v_is_clear : option Z;
  v_is_about_false_rumor : Z;
  v_domain : string
}.

(** [page[f'{lang}_snippets']] and its siblings. *)
Definition lang_snippets (p : page) (lang : string) : option (dict string) :=
  if String.eqb lang "ja" then ja_snippets p
  else if String.eqb lang "en" then en_snippets p else None.

Definition lang_translated (p : page) (lang : string) : option translated_t :=
  if String.eqb lang "ja" then ja_translated p
  else if String.eqb lang "en" then en_translated p else None.

Definition lang_domain_label (p : page) (lang : string) : option string :=
  if String.eqb lang "ja" then ja_domain_label p
  else if String.eqb lang "en" then en_domain_label p else None.

(** [DBHandler.reshape_page] (lines 244-263).  The dict it mutates is the
    fresh copy returned by the query, so the model builds a new value; every
    [[...]] and [del] of a missing key raises [KeyError]. *)
Definition reshape_page (p : page) (lang : string) : result view :=
  topics_ <- mapM (fun kv =>
               let itopic := fst kv in
               etopic <- get_key (lookup itopic (ITOPIC_ETOPIC_MAP cfg)) ;;
               name_ <- get_key (lookup2 (etopic, lang) (ETOPIC_TRANS_MAP cfg)) ;;
               snippets <- get_key (lang_snippets p lang) ;;
               snippet_ <- get_key (lookup itopic snippets) ;;
               Ok {| name := name_; snippet := snippet_; relatedness := snd kv |})
             (topics p) ;;
  translated_ <- get_key (lang_translated p lang) ;;
  domain_label_ <- get_key (lang_domain_label p lang) ;;
  domain_ <- get_key (domain p) ;;
  let is_about_false_rumor_ :=
    if String.eqb domain_ "fij.info" then 1%Z else is_about_false_rumor p in
  _ <- get_key (ja_snippets p) ;;
  _ <- get_key (en_snippets p) ;;
  _ <- get_key (ja_translated p) ;;
  _ <- get_key (en_translated p) ;;
  _ <- get_key (ja_domain_label p) ;;
  _ <- get_key (en_domain_label p) ;;
  Ok {| v_country := country p;
        v_displayed_country := displayed_country p;
        v_orig := orig p;
        v_url := url p;
        v_topics := topics_;
        v_translated := translated_;
        v_domain_label := domain_label_;
        v_is_checked := is_checked p;
        v_is_about_COVID_19 := is_about_COVID_19 p;
        v_is_useful := is_useful p;
        v_is_clear := is_clear p;
        v_is_about_false_rumor := is_about_false_rumor_;
        v_domain := domain_ |}.

(** ** Queries: [get_filter], [get_sort], [get_pages] *)

(** The clauses of the [$and] filter. *)
Inductive clause :=
| Is_about_COVID (v : Z)                    (* {'page.is_about_COVID-19': v} *)
| Topics_exist (itopics : list string)      (* {'$or': [{'page.topics.t': {'$exists': True}}]} *)
| Displayed_country_in (icountries : list string). (* {'page.displayed_country': {'$in': ...}} *)

Definition get_filter (itopics icountries : list string) : list clause :=
  [Is_about_COVID 1%Z]
  ++ (match itopics with [] => [] | _ => [Topics_exist itopics] end)
  ++ (match icountries with [] => [] | _ => [Displayed_country_in icountries] end).

(** MongoDB's reading of a clause on a stored page. *)
Definition matches_clause (p : page) (c : clause) : bool :=
  match c with
  | Is_about_COVID v => Z.eqb (is_about_COVID_19 p) v
  | Topics_exist itopics => existsb (fun t => dict_mem t (topics p)) itopics
  | Displayed_country_in icountries => str_mem (displayed_country p) icountries
  end.

Definition matches (filter_ : list clause) (p : page) : bool :=
  forallb (matches_clause p) filter_.

Definition DESCENDING : Z := (-1)%Z.

Definition get_sort (itopics : list string) : list (string * Z) :=
  ("page.orig.simple_timestamp", DESCENDING)
  :: map (fun itopic => (String.append "page.topics." itopic, DESCENDING)) itopics.

(** The order in which MongoDB returns the matching documents for a sort
    specification. *)
Variable mongo_sort : list (string * Z) -> list page -> list page.

(** [collection.find(filter=..., sort=...)] *)
Definition find (c : list page) (filter_ : list clause) (sort_ : list (string * Z))
  : list page :=
  mongo_sort sort_ (filter (matches filter_) c).

(** [cur.skip(start).limit(limit)]: a negative skip raises [ValueError]; a
    limit of 0 means no limit and a negative limit counts as its absolute
    value. *)
Definition skip_limit (start limit : Z) (l : list page) : result (list page) :=
  if Z.ltb start 0 then Err ValueError
  else
    let l' := skipn (Z.to_nat start) l in
    Ok (if Z.eqb limit 0 then l' else firstn (Z.to_nat (Z.abs limit)) l').

Definition get_pages (c : list page) (itopics icountries : list string)
    (start limit : Z) (lang : string) : result (list view) :=
  let filter_ := get_filter itopics icountries in
  let sort_ := get_sort itopics in
  let cur := find c filter_ sort_ in
  docs <- skip_limit start limit cur ;;
  mapM (fun p => reshape_page p lang) docs.

(** ** [search], [classes], [countries] *)

(** The body built by [get_es_query]. *)
Record es_query := {
  q_regions : list string;
  q_text : string;
  q_from : Z;
  q_size : Z
}.

(** [self.es.search(index=..., body=...)]: the [url] of each hit, in order. *)
Variable es_search : string -> es_query -> list string.

Definition get_es_query (query : string) (start limit : Z) (regions : list string)
  : es_query :=
  {| q_regions := regions; q_text := query; q_from := start; q_size := limit |}.

(** [convert_hits_to_pages]: hits whose page is gone are skipped. *)
Fixpoint convert_hits_to_pages (c : list page) (lang : string) (hits : list string)
  : result (list view) :=
  match hits with
  | [] => Ok []
  | hit :: hits' =>
      match find_one hit c with
      | Some doc => v <- reshape_page doc lang ;;
                    vs <- convert_hits_to_pages c lang hits' ;;
                    Ok (v :: vs)
      | None => convert_hits_to_pages c lang hits'
      end
  end.

(** What [classes], [countries] and [search] return: a page list, a dict of
    page lists, or a dict of dicts of page lists. *)
Inductive pages_result :=
| RList (l : list view)
| RMap (m : dict (list view))
| RNested (m : dict (dict (list view))).

(** The items of a taxonomy map, skipping the ['all'] key. *)
Definition non_all {V} (d : dict V) : dict V :=
  filter (fun kv => negb (String.eqb (fst kv) "all")) d.

Definition search (c : list page) (ecountry : string) (start limit : Z)
    (lang query : string) : result pages_result :=
  if nonempty ecountry then
    let body := get_es_query query start limit
                  (dict_get ecountry (ECOUNTRY_ICOUNTRIES_MAP cfg) []) in
    fmap RList (convert_hits_to_pages c lang (es_search "covid19-pages-ja" body))
  else
    fmap RMap
      (mapM (fun kv =>
               let body := get_es_query query start limit (snd kv) in
               fmap (pair (fst kv))
                 (convert_hits_to_pages c lang (es_search "covid19-pages-ja" body)))
         (non_all (ECOUNTRY_ICOUNTRIES_MAP cfg))).

(** [ETOPIC_TRANS_MAP.get((etopic, 'ja'), etopic)] *)
Definition trans_etopic (etopic : string) : string :=
  dict2_get (etopic, "ja") (ETOPIC_TRANS_MAP cfg) etopic.

Definition trans_ecountry (ecountry : string) : string :=
  dict2_get (ecountry, "ja") (ECOUNTRY_TRANS_MAP cfg) ecountry.

Definition classes (c : list page) (etopic ecountry : string) (start limit : Z)
    (lang query : string) : result pages_result :=
  if String.eqb etopic "search" then search c ecountry start limit lang query else
  let etopic := trans_etopic etopic in
  let ecountry := trans_ecountry ecountry in
  if nonempty etopic && nonempty ecountry then
    let itopics := dict_get etopic (ETOPIC_ITOPICS_MAP cfg) [] in
    let icountries := dict_get ecountry (ECOUNTRY_ICOUNTRIES_MAP cfg) [] in
    fmap RList (get_pages c itopics icountries start limit lang)
  else if nonempty etopic then
    let itopics := dict_get etopic (ETOPIC_ITOPICS_MAP cfg) [] in
    fmap RMap
      (mapM (fun kv => fmap (pair (fst kv)) (get_pages c itopics (snd kv) start limit lang))
         (non_all (ECOUNTRY_ICOUNTRIES_MAP cfg)))
  else
    fmap RNested
      (mapM (fun tv =>
               fmap (pair (fst tv))
                 (mapM (fun kv =>
                          fmap (pair (fst kv)) (get_pages c (snd tv) (snd kv) start limit lang))
                    (non_all (ECOUNTRY_ICOUNTRIES_MAP cfg))))
         (non_all (ETOPIC_ITOPICS_MAP cfg))).

Definition countries (c : list page) (ecountry etopic : string) (start limit : Z)
    (lang : string) : result pages_result :=
  let etopic := trans_etopic etopic in
  let ecountry := trans_ecountry ecountry in
  if nonempty ecountry && nonempty etopic then
    let itopics := dict_get etopic (ETOPIC_ITOPICS_MAP cfg) [] in
    let icountries := dict_get ecountry (ECOUNTRY_ICOUNTRIES_MAP cfg) [] in
    fmap RList (get_pages c itopics icountries start limit lang)
  else if nonempty ecountry then
    let icountries := dict_get ecountry (ECOUNTRY_ICOUNTRIES_MAP cfg) [] in
    fmap RMap
      (mapM (fun tv => fmap (pair (fst tv)) (get_pages c (snd tv) icountries start limit lang))
         (non_all (ETOPIC_ITOPICS_MAP cfg)))
  else
    fmap RNested
      (mapM (fun kv =>
               fmap (pair (fst kv))
                 (mapM (fun tv =>
                          fmap (pair (fst tv)) (get_pages c (snd tv) (snd kv) start limit lang))
                    (non_all (ETOPIC_ITOPICS_MAP cfg))))
         (non_all (ECOUNTRY_ICOUNTRIES_MAP cfg))).

(** ** [update_page] *)

(** [{ETOPIC_ITOPICS_MAP[etopic][0]: 1.0 for etopic in etopics}] *)
Fixpoint new_etopics_loop (acc : dict Q) (etopics : list string) : result (dict Q) :=
  match etopics with
  | [] => Ok acc
  | etopic :: rest =>
      itopics <- get_key (lookup etopic (ETOPIC_ITOPICS_MAP cfg)) ;;
      itopic <- (match itopics with i :: _ => Ok i | [] => Err IndexError end) ;;
      new_etopics_loop (dict_set itopic 1 acc) rest
  end.

Definition new_etopics_of (etopics : list string) : result (dict Q) :=
  new_etopics_loop [] etopics.

(** The [$set] of [update_page] on an existing page. *)
Definition set_correction (covid useful rumor : Z) (icountry : string)
    (new_etopics : dict Q) (p : page) : page :=
  {| country := country p;
     displayed_country := icountry;
     orig := orig p;
     ja_translated := ja_translated p;
     en_translated := en_translated p;
     url := url p;
     topics := new_etopics;
     ja_snippets := ja_snippets p;
     en_snippets := en_snippets p;
     is_checked := 1;
     is_about_COVID_19 := covid;
     is_useful := useful;
     is_clear := is_clear p;
     is_about_false_rumor := rumor;
     domain := domain p;
     ja_domain_label := ja_domain_label p;
     en_domain_label := en_domain_label p |}.

(** The page [upsert=True] creates: the filter's [page.url] and the [$set]. *)
Definition fresh_correction (u : string) (covid useful rumor : Z) (icountry : string)
    (new_etopics : dict Q) : page :=
  {| country := None;
     displayed_country := icountry;
     orig := None;
     ja_translated := None;
     en_translated := None;
     url := u;
     topics := new_etopics;
     ja_snippets := None;
     en_snippets := None;
     is_checked := 1;
     is_about_COVID_19 := covid;
     is_useful := useful;
     is_clear := None;
     is_about_false_rumor := rumor;
     domain := None;
     ja_domain_label := None;
     en_domain_label := None |}.

(** [open(path, mode='a')] followed by one [json.dump] and ['\n']. *)
Definition append_line (path : string) (line : updated) (fs : string -> list updated)
  : string -> list updated :=
  fun p => if String.eqb p path then fs p ++ [line] else fs p.

(** [DBHandler.update_page]; [now] is the value of [datetime.now().isoformat()]. *)
Definition update_page (url_ : string) (is_about_covid_19 is_useful_ is_about_false_rumor_ : bool)
    (icountry : string) (etopics : list string) (notes : string)
    (category_check_log_path : string) (now : string) : M updated :=
  fun w =>
    let new_is_about_covid_19 := if is_about_covid_19 then 1%Z else 0%Z in
    let new_is_useful := if is_useful_ then 1%Z else 0%Z in
    let new_is_about_false_rumor := if is_about_false_rumor_ then 1%Z else 0%Z in
    match new_etopics_of etopics with
    | Err e => (Err e, w)
    | Ok new_etopics =>
        let c := collection w in
        let c' :=
          match find_one url_ c with
          | Some _ =>
              update_first url_
                (set_correction new_is_about_covid_19 new_is_useful
                   new_is_about_false_rumor icountry new_etopics) c
          | None =>
              c ++ [fresh_correction url_ new_is_about_covid_19 new_is_useful
                      new_is_about_false_rumor icountry new_etopics]
          end in
        let updated_ :=
          {| u_url := url_;
             u_is_about_COVID_19 := new_is_about_covid_19;
             u_is_useful := new_is_useful;
             u_is_about_false_rumor := new_is_about_false_rumor;
             u_new_country := icountry;
             u_new_topics := map fst new_etopics;
             u_notes := notes;
             u_time := now |} in
        (Ok updated_,
         {| collection := c'; files := append_line category_check_log_path updated_ (files w) |})
    end.

(** ** Observations on the collection *)

(** The original timestamp stored for a url, if the page has one. *)
Definition stored_ts (u : string) (c : list page) : option string :=
  match find_one u c with
  | Some p => option_map o_timestamp (orig p)
  | None => None
  end.

(** Order on stored timestamps: none yet, then [str] order. *)
Definition ts_le (a b : option string) : Prop :=
  match a, b with
  | None, _ => True
  | Some x, Some y => String.leb x y = true
  | Some _, None => False
  end.

(** The ingestion loop of [main]: one [upsert_page] per input line; a raise
    in one call leaves the world as that call left it. *)
Definition upsert_all (ds : list document) (w : world) : world :=
  fold_left (fun w d => snd (upsert_page d w)) ds w.

(** Number of stored pages with a given url. *)
Definition count_url (u : string) (c : list page) : nat :=
  length (filter (fun p => String.eqb (url p) u) c).

(** [o is not None] *)
Definition isSome {A} (o : option A) : bool :=
  match o with Some _ => true | None => false end.

(** A payload that gets past every check of lines 55-96. *)
Definition valid_payload (d : document) : bool :=
  nonempty (title (d_orig d))
  && nonempty (title (d_ja_translated d))
  && nonempty (title (d_en_translated d))
  && isSome (fromisoformat_date (timestamp (d_orig d)))
  && isSome (lookup "is_useful" (d_classes_bert d))
  && isSome (lookup "is_about_false_rumor" (d_classes_bert d)).

(** A non-empty title made of whitespace only: a sequence of one or more
    whitespace characters. *)
Definition blank (s : string) : Prop :=
  exists ns, ns <> [] /\ Forall (fun n => py_isspace n = true) ns /\
    list_ascii_of_string s = concat (map utf8_encode ns).

(** ** [main] *)

(** The first loop of [main]: [upsert_page] on each line of the input file,
    in order; a raise ends [main] with the writes done so far. *)
Fixpoint ingest (ds : list document) : M unit :=
  fun w =>
    match ds with
    | [] => (Ok tt, w)
    | d :: ds' =>
        match upsert_page d w with
        | (Ok _, w') => ingest ds' w'
        | (Err e, w') => (Err e, w')
        end
    end.

(** A line of the category-check log after [json.loads(line.strip())]: the
    keys that [main] reads, [None] when the object lacks one. *)
Record logged := {
  l_url : option string;
  l_is_about_COVID_19 : option Z;
  l_is_useful : option Z;
  l_is_about_false_rumor : option Z;
  l_new_country : option string;
  l_new_topics : option (list string)
}.

(** A line of the log file: blank once stripped, not JSON (so [json.loads]
    raises [JSONDecodeError], a [ValueError]), or a JSON object. *)
Inductive log_line :=
| Blank_line
| Invalid_line
| Json_line (o : logged).

(** The line [update_page] writes for [updated] ([json.dump] and ['\n']), as
    [json.loads] reads it back. *)
Definition dumped (u : updated) : log_line :=
  Json_line {| l_url := Some (u_url u);
               l_is_about_COVID_19 := Some (u_is_about_COVID_19 u);
               l_is_useful := Some (u_is_useful u);
               l_is_about_false_rumor := Some (u_is_about_false_rumor u);
               l_new_country := Some (u_new_country u);
               l_new_topics := Some (u_new_topics u) |}.

(** [{new_topic: 1.0 for new_topic in new_topics}] *)
Definition topics_of_new (new_topics : list string) : dict Q :=
  fold_left (fun acc t => dict_set t 1 acc) new_topics [].

(** The body of the second loop of [main] for one line: blank lines are
    skipped, a line whose url is not stored is skipped, otherwise the stored
    page gets the [$set] of the line ([update_one] without [upsert]). *)
Definition replay_line (line : log_line) : M unit :=
  fun w =>
    match line with
    | Blank_line => (Ok tt, w)
    | Invalid_line => (Err ValueError, w)
    | Json_line o =>
        match l_url o with
        | None => (Err KeyError, w)
        | Some u =>
            match find_one u (collection w) with
            | None => (Ok tt, w)
            | Some _ =>
                match l_is_about_COVID_19 o, l_is_useful o, l_new_country o, l_new_topics o with
                | Some covid, Some useful, Some new_country, Some new_topics =>
                    let rumor := match l_is_about_false_rumor o with
                                 | Some r => r
                                 | None => 0%Z
                                 end in
                    (Ok tt, set_collection
                              (update_first u
                                 (set_correction covid useful rumor new_country
                                    (topics_of_new new_topics))
                                 (collection w)) w)
                | _, _, _, _ => (Err KeyError, w)
                end
            end
        end
    end.

Fixpoint replay (lines : list log_line) : M unit :=
  fun w =>
    match lines with
    | [] => (Ok tt, w)
    | line :: lines' =>
        match replay_line line w with
        | (Ok _, w') => replay lines' w'
        | (Err e, w') => (Err e, w')
        end
    end.

(** [main] on the parsed input pages and the lines of the category-check
    log; the value returned is [num_docs], the page count it logs between
    the two loops. *)
Definition main (ds : list document) (lines : list log_line) : M nat :=
  fun w =>
    match ingest ds w with
    | (Err e, w') => (Err e, w')
    | (Ok _, w') =>
        let num_docs := length (collection w') in
        match replay lines w' with
        | (Ok _, w'') => (Ok num_docs, w'')
        | (Err e, w'') => (Err e, w'')
        end
    end.

End Handler.

(** * Properties *)

(** ** Strings *)

Lemma ascii_compare_N (a b : ascii) :
  Ascii.compare a b = N.compare (N_of_ascii a) (N_of_ascii b).
Proof. reflexivity. Qed.

Lemma string_compare_refl (s : string) : String.compare s s = Eq.
Proof.
  induction s as [|c s IH]; simpl; [reflexivity|].
  rewrite ascii_compare_N, N.compare_refl. exact IH.
Qed.

Lemma string_ltb_irrefl (s : string) : String.ltb s s = false.
Proof. unfold String.ltb. now rewrite string_compare_refl. Qed.

Lemma string_compare_lt_trans (a b c : string) :
  String.compare a b = Lt -> String.compare b c = Lt -> String.compare a c = Lt.
Proof.
  revert b c; induction a as [|x a IH]; intros [|y b] [|z c]; simpl;
    try discriminate; try reflexivity.
  rewrite !ascii_compare_N.
  destruct (N.compare_spec (N_of_ascii x) (N_of_ascii y)) as [Exy|Exy|Exy];
  destruct (N.compare_spec (N_of_ascii y) (N_of_ascii z)) as [Eyz|Eyz|Eyz];
    intros H1 H2; try discriminate.
  - rewrite Exy, Eyz, N.compare_refl. eauto.
  - rewrite Exy, (proj2 (N.compare_lt_iff _ _) Eyz). reflexivity.
  - rewrite <- Eyz, (proj2 (N.compare_lt_iff _ _) Exy). reflexivity.
  - rewrite (proj2 (N.compare_lt_iff _ _) (N.lt_trans _ _ _ Exy Eyz)).
    reflexivity.
Qed.

Lemma string_leb_trans (a b c : string) :
  String.leb a b = true -> String.leb b c = true -> String.leb a c = true.
Proof.
  unfold String.leb.
  destruct (String.compare a b) eqn:E1; try discriminate;
  destruct (String.compare b c) eqn:E2; try discriminate; intros _ _.
  - apply String.compare_eq_iff in E1, E2. subst. now rewrite string_compare_refl.
  - apply String.compare_eq_iff in E1. subst. now rewrite E2.
  - apply String.compare_eq_iff in E2. subst. now rewrite E1.
  - now rewrite (string_compare_lt_trans _ _ _ E1 E2).
Qed.

Lemma string_ltb_leb (a b : string) : String.ltb a b = true -> String.leb a b = true.
Proof. unfold String.ltb, String.leb. now destruct (String.compare a b). Qed.

Lemma string_leb_refl (a : string) : String.leb a a = true.
Proof. unfold String.leb. now rewrite string_compare_refl. Qed.

Lemma ts_le_trans a b c : ts_le a b -> ts_le b c -> ts_le a c.
Proof.
  destruct a, b, c; simpl; auto; try contradiction. apply string_leb_trans.
Qed.

Lemma ts_le_refl a : ts_le a a.
Proof. destruct a; simpl; auto using string_leb_refl. Qed.

Lemma py_isspace_In (n : N) : py_isspace n = true -> In n py_whitespace.
Proof.
  unfold py_isspace. intros H. apply existsb_exists in H as (m & Hm & E).
  apply N.eqb_eq in E. subst m. exact Hm.
Qed.

(** How [drop_spaces] and [drop_spaces_rev] read the encoding of a
    whitespace character. *)
Lemma utf8_encode_space (n : N) :
  py_isspace n = true ->
  (exists a, utf8_encode n = [a] /\ space1 a = true) \/
  (exists a b, utf8_encode n = [a; b] /\ space1 a = false /\ space1 b = false /\
     space2 a b = true) \/
  (exists a b c, utf8_encode n = [a; b; c] /\ space1 a = false /\ space2 a b = false /\
     space1 c = false /\ space2 b c = false /\ space3 a b c = true).
Proof.
  intros H. apply py_isspace_In in H.
  repeat (destruct H as [<-|H];
          [first [ left; eexists; split; reflexivity
                 | right; left; do 2 eexists; repeat split; reflexivity
                 | right; right; do 3 eexists; repeat split; reflexivity ]|]).
  destruct H.
Qed.

Lemma drop_spaces_space (n : N) (rest : list ascii) :
  py_isspace n = true -> drop_spaces (utf8_encode n ++ rest) = drop_spaces rest.
Proof.
  intros H.
  destruct (utf8_encode_space n H)
    as [(a & -> & H1)|[(a & b & -> & H1 & _ & H2)|(a & b & c & -> & H1 & H2 & _ & _ & H3)]];
    cbn [drop_spaces app].
  - rewrite H1. reflexivity.
  - rewrite H1, H2. reflexivity.
  - rewrite H1, H2, H3. reflexivity.
Qed.

Lemma strip_blank (s : string) (ns : list N) :
  Forall (fun n => py_isspace n = true) ns ->
  list_ascii_of_string s = concat (map utf8_encode ns) -> strip s = "".
Proof.
  intros Hns Hs. unfold strip. rewrite Hs.
  assert (D : drop_spaces (concat (map utf8_encode ns)) = []).
  { clear Hs. induction Hns as [|n ns Hn _ IH]; [reflexivity|].
    cbn [map concat]. rewrite drop_spaces_space by exact Hn. exact IH. }
  rewrite D. reflexivity.
Qed.

Lemma drop_spaces_head (l : list ascii) :
  drop_spaces l = [] \/
  exists a l1, drop_spaces l = a :: l1 /\ space1 a = false /\
    (forall b l2, l1 = b :: l2 -> space2 a b = false /\
       forall c l3, l2 = c :: l3 -> space3 a b c = false).
Proof.
  remember (length l) as k eqn:Hk. revert l Hk.
  induction k as [k IH] using lt_wf_ind. intros l ->.
  destruct l as [|a l1]; [left; reflexivity|]. cbn [drop_spaces].
  destruct (space1 a) eqn:E1; [apply (IH (length l1)); simpl; [lia|reflexivity]|].
  destruct l1 as [|b l2].
  { right. exists a, []. split; [reflexivity|]. split; [exact E1|]. discriminate. }
  destruct (space2 a b) eqn:E2; [apply (IH (length l2)); simpl; [lia|reflexivity]|].
  destruct l2 as [|c l3].
  { right. exists a, [b]. split; [reflexivity|]. split; [exact E1|].
    intros b' l2 Hb. inversion Hb; subst. split; [exact E2|]. discriminate. }
  destruct (space3 a b c) eqn:E3; [apply (IH (length l3)); simpl; [lia|reflexivity]|].
  right. exists a, (b :: c :: l3). split; [reflexivity|]. split; [exact E1|].
  intros b' l2 Hb. inversion Hb; subst. split; [exact E2|].
  intros c' l3' Hc. inversion Hc; subst. exact E3.
Qed.

Lemma drop_spaces_rev_head (l : list ascii) :
  drop_spaces_rev l = [] \/
  exists c l1, drop_spaces_rev l = c :: l1 /\ space1 c = false /\
    (forall b l2, l1 = b :: l2 -> space2 b c = false /\
       forall a l3, l2 = a :: l3 -> space3 a b c = false).
Proof.
  remember (length l) as k eqn:Hk. revert l Hk.
  induction k as [k IH] using lt_wf_ind. intros l ->.
  destruct l as [|c l1]; [left; reflexivity|]. cbn [drop_spaces_rev].
  destruct (space1 c) eqn:E1; [apply (IH (length l1)); simpl; [lia|reflexivity]|].
  destruct l1 as [|b l2].
  { right. exists c, []. split; [reflexivity|]. split; [exact E1|]. discriminate. }
  destruct (space2 b c) eqn:E2; [apply (IH (length l2)); simpl; [lia|reflexivity]|].
  destruct l2 as [|a l3].
  { right. exists c, [b]. split; [reflexivity|]. split; [exact E1|].
    intros b' l2 Hb. inversion Hb; subst. split; [exact E2|]. discriminate. }
  destruct (space3 a b c) eqn:E3; [apply (IH (length l3)); simpl; [lia|reflexivity]|].
  right. exists c, (b :: a :: l3). split; [reflexivity|]. split; [exact E1|].
  intros b' l2 Hb. inversion Hb; subst. split; [exact E2|].
  intros a' l3' Ha. inversion Ha; subst. exact E3.
Qed.

Lemma drop_spaces_rev_suffix (l : list ascii) : exists pre, l = pre ++ drop_spaces_rev l.
Proof.
  remember (length l) as k eqn:Hk. revert l Hk.
  induction k as [k IH] using lt_wf_ind. intros l ->.
  destruct l as [|c l1]; [exists []; reflexivity|]. cbn [drop_spaces_rev].
  destruct (space1 c).
  { destruct (IH (length l1)) with (l := l1) as [pre Hpre]; simpl; [lia|reflexivity|].
    exists (c :: pre). simpl. congruence. }
  destruct l1 as [|b l2]; [exists []; reflexivity|].
  destruct (space2 b c).
  { destruct (IH (length l2)) with (l := l2) as [pre Hpre]; simpl; [lia|reflexivity|].
    exists (c :: b :: pre). simpl. congruence. }
  destruct l2 as [|a l3]; [exists []; reflexivity|].
  destruct (space3 a b c).
  { destruct (IH (length l3)) with (l := l3) as [pre Hpre]; simpl; [lia|reflexivity|].
    exists (c :: b :: a :: pre). simpl. congruence. }
  exists []. reflexivity.
Qed.

Lemma drop_spaces_no_lead (l rest : list ascii) (n : N) :
  py_isspace n = true -> drop_spaces l <> utf8_encode n ++ rest.
Proof.
  intros Hn Hl.
  destruct (drop_spaces_head l) as [H|(a0 & l1 & H & H1 & H2)]; rewrite Hl in H.
  { destruct (utf8_encode_space n Hn)
      as [(a & E & _)|[(a & b & E & _)|(a & b & c & E & _)]]; rewrite E in H; discriminate. }
  destruct (utf8_encode_space n Hn)
    as [(a & E & Ha)|[(a & b & E & _ & _ & Hab)|(a & b & c & E & _ & _ & _ & _ & Habc)]];
    rewrite E in H; inversion H; subst.
  - congruence.
  - destruct (H2 b _ eq_refl) as [Hf _]. congruence.
  - destruct (H2 b _ eq_refl) as [_ Hf]. specialize (Hf c _ eq_refl). congruence.
Qed.

Lemma drop_spaces_rev_no_lead (l rest : list ascii) (n : N) :
  py_isspace n = true -> drop_spaces_rev l <> rev (utf8_encode n) ++ rest.
Proof.
  intros Hn Hl.
  destruct (drop_spaces_rev_head l) as [H|(c0 & l1 & H & H1 & H2)]; rewrite Hl in H.
  { destruct (utf8_encode_space n Hn)
      as [(a & E & _)|[(a & b & E & _)|(a & b & c & E & _)]]; rewrite E in H; discriminate. }
  destruct (utf8_encode_space n Hn)
    as [(a & E & Ha)|[(a & b & E & _ & _ & Hab)|(a & b & c & E & _ & _ & _ & _ & Habc)]];
    rewrite E in H; inversion H; subst.
  - congruence.
  - destruct (H2 a _ eq_refl) as [Hf _]. congruence.
  - destruct (H2 b _ eq_refl) as [_ Hf]. specialize (Hf a _ eq_refl). congruence.
Qed.

(** The result of [strip] neither starts nor ends with a whitespace
    character. *)
Lemma strip_no_space (s : string) (n : N) (rest : list ascii) :
  py_isspace n = true ->
  list_ascii_of_string (strip s) <> utf8_encode n ++ rest /\
  list_ascii_of_string (strip s) <> rest ++ utf8_encode n.
Proof.
  intros Hn. unfold strip. rewrite list_ascii_of_string_of_list_ascii.
  set (D := drop_spaces (list_ascii_of_string s)).
  destruct (drop_spaces_rev_suffix (rev D)) as [pre Hpre].
  split; intros H.
  - apply (drop_spaces_no_lead (list_ascii_of_string s) (rest ++ rev pre) n Hn).
    fold D. rewrite <- (rev_involutive D), Hpre, rev_app_distr, H, app_assoc. reflexivity.
  - apply (drop_spaces_rev_no_lead (rev D) (rev rest) n Hn).
    rewrite <- (rev_involutive (drop_spaces_rev (rev D))), H, rev_app_distr. reflexivity.
Qed.

(** ** The collection *)

Lemma find_one_app (u : string) (c : list page) (q : page) :
  find_one u (c ++ [q]) =
  match find_one u c with
  | Some p => Some p
  | None => if String.eqb (url q) u then Some q else None
  end.
Proof.
  induction c as [|p c IH]; simpl; [reflexivity|].
  destruct (String.eqb (url p) u); auto.
Qed.

Lemma find_one_update_first_hit (u : string) (c : list page) (q : page) :
  url q = u -> find_one u c <> None ->
  find_one u (update_first u (fun _ => q) c) = Some q.
Proof.
  intros Hq. induction c as [|p c IH]; simpl; [congruence|].
  destruct (String.eqb (url p) u) eqn:E; simpl.
  - rewrite Hq, String.eqb_refl. reflexivity.
  - rewrite E. exact IH.
Qed.

Lemma find_one_update_first_other (u u' : string) (f : page -> page) (c : list page) :
  u <> u' -> (forall p, url p = u' -> url (f p) = u') ->
  find_one u (update_first u' f c) = find_one u c.
Proof.
  intros Hne Hf. induction c as [|p c IH]; simpl; [reflexivity|].
  destruct (String.eqb (url p) u') eqn:E; simpl.
  - apply String.eqb_eq in E.
    rewrite (Hf p E), E.
    destruct (String.eqb_spec u' u); [congruence|].
    reflexivity.
  - rewrite IH. reflexivity.
Qed.

Lemma count_url_app (u : string) (c : list page) (q : page) :
  (count_url u (c ++ [q]) = count_url u c + (if String.eqb (url q) u then 1 else 0))%nat.
Proof.
  unfold count_url. rewrite filter_app, length_app. simpl.
  destruct (String.eqb (url q) u); reflexivity.
Qed.

Lemma count_url_none (u : string) (c : list page) :
  find_one u c = None -> count_url u c = 0%nat.
Proof.
  unfold count_url. induction c as [|p c IH]; simpl; [reflexivity|].
  destruct (String.eqb (url p) u); [discriminate|]. exact IH.
Qed.

Lemma count_url_some (u : string) (c : list page) (p : page) :
  find_one u c = Some p -> (1 <= count_url u c)%nat.
Proof.
  unfold count_url. induction c as [|p' c IH]; simpl; [discriminate|].
  destruct (String.eqb (url p') u); simpl; [lia|]. exact IH.
Qed.

Lemma count_url_update_first (u : string) (c : list page) (q : page) :
  url q = u -> count_url u (update_first u (fun _ => q) c) = count_url u c.
Proof.
  unfold count_url. intros Hq. induction c as [|p c IH]; simpl; [reflexivity|].
  destruct (String.eqb (url p) u) eqn:E; simpl.
  - rewrite Hq, String.eqb_refl. reflexivity.
  - rewrite E. exact IH.
Qed.

(** ** [upsert_page] *)

Section Upsert.

Variable cfg : Config.
Variable iso : string -> option string.

Ltac destruct_matches :=
  repeat match goal with
         | |- context [match ?x with _ => _ end] => destruct x eqn:?
         | H : context [match ?x with _ => _ end] |- _ => destruct x eqn:?
         end.

Lemma make_document_some (d : document) (p : page) :
  make_document cfg iso d = Ok (Some p) ->
  valid_payload iso d = true /\
  url p = d_url d /\
  (exists sd, iso (timestamp (d_orig d)) = Some sd /\
     orig p = Some {| o_title := strip (title (d_orig d));
                      o_timestamp := timestamp (d_orig d);
                      o_simple_timestamp := sd |}) /\
  ja_translated p = Some {| t_title := strip (title (d_ja_translated d));
                            t_timestamp := timestamp (d_ja_translated d) |} /\
  en_translated p = Some {| t_title := strip (title (d_en_translated d));
                            t_timestamp := timestamp (d_en_translated d) |} /\
  topics p = select_topics cfg (d_classes_bert d) /\
  ja_snippets p = Some (reshape_snippets cfg (d_snippets d)) /\
  en_snippets p = Some (reshape_snippets cfg (d_snippets_en d)).
Proof.
  unfold make_document, valid_payload, bind, get_key.
  destruct_matches; simpl; intros H; try discriminate;
    inversion H; subst; clear H; simpl;
    repeat match goal with
           | H : Ok _ = Ok _ |- _ => inversion H; subst; clear H
           | H : negb _ = false |- _ => apply negb_false_iff in H; rewrite H
           end;
    repeat match goal with H : ?x = Some _ |- context [?x] => rewrite H end; simpl;
    (split; [reflexivity|]); repeat split; eauto.
Qed.

Lemma make_document_valid (d : document) :
  valid_payload iso d = true -> exists p, make_document cfg iso d = Ok (Some p).
Proof.
  unfold make_document, valid_payload, bind, get_key.
  intros H. repeat rewrite andb_true_iff in H.
  destruct H as [[[[[H1 H2] H3] H4] H5] H6].
  rewrite H1, H2, H3. simpl.
  destruct_matches; simpl in *; try discriminate; eauto.
Qed.

Lemma upsert_page_document (d : document) (w : world) (p : page) :
  make_document cfg iso d = Ok (Some p) ->
  upsert_page cfg iso d w = upsert_rule (timestamp (d_orig d)) p w.
Proof. intros H. unfold upsert_page. now rewrite H. Qed.

Lemma upsert_page_stored_ts (d : document) (w : world) (u : string) :
  ts_le (stored_ts u (collection w)) (stored_ts u (collection (snd (upsert_page cfg iso d w)))).
Proof.
  unfold upsert_page.
  destruct (make_document cfg iso d) as [[p|]|e] eqn:E; simpl; try apply ts_le_refl.
  destruct (make_document_some _ _ E) as (_ & Hurl & (sd & _ & Horig) & _).
  unfold upsert_rule. rewrite Hurl.
  destruct (find_one (d_url d) (collection w)) as [e|] eqn:F.
  - destruct (orig e) as [eo|] eqn:O; simpl; [|apply ts_le_refl].
    destruct (String.ltb (o_timestamp eo) (timestamp (d_orig d))) eqn:L; simpl;
      [|apply ts_le_refl].
    unfold stored_ts.
    destruct (String.eqb_spec u (d_url d)) as [->|Hne].
    + rewrite F, O, find_one_update_first_hit by congruence.
      rewrite Horig. simpl. now apply string_ltb_leb.
    + rewrite find_one_update_first_other; auto. apply ts_le_refl.
  - simpl. unfold stored_ts. rewrite find_one_app.
    destruct (find_one u (collection w)); [apply ts_le_refl|].
    destruct (String.eqb (url p) u); simpl; auto.
Qed.

Lemma upsert_all_stored_ts (ds : list document) (w : world) (u : string) :
  ts_le (stored_ts u (collection w)) (stored_ts u (collection (upsert_all cfg iso ds w))).
Proof.
  unfold upsert_all. revert w.
  induction ds as [|d ds IH]; intros w; simpl; [apply ts_le_refl|].
  eapply ts_le_trans; [apply upsert_page_stored_ts|apply IH].
Qed.

(** C1 (monotonic overwrite).  Once [document_] is built, [upsert_page]
    inserts it when no page has its url, replaces the stored page by it
    entirely when the new original timestamp is strictly greater (as a
    [str]) than the stored one, and otherwise returns without error and
    without a write; so along any sequence of [upsert_page] calls the stored
    original timestamp of every url never decreases. *)
Theorem upsert_page_monotonic_overwrite :
  (forall d w document_,
     make_document cfg iso d = Ok (Some document_) ->
     match find_one (d_url d) (collection w) with
     | None => upsert_page cfg iso d w = (Ok tt, set_collection (collection w ++ [document_]) w)
     | Some existing_page =>
         forall eo, orig existing_page = Some eo ->
           upsert_page cfg iso d w =
             if String.ltb (o_timestamp eo) (timestamp (d_orig d))
             then (Ok tt, set_collection
                            (update_first (d_url d) (fun _ => document_) (collection w)) w)
             else (Ok tt, w)
     end) /\
  (forall ds w u,
     ts_le (stored_ts u (collection w)) (stored_ts u (collection (upsert_all cfg iso ds w)))).
Proof.
  split.
  - intros d w doc_ E.
    destruct (make_document_some _ _ E) as (_ & Hurl & _).
    rewrite (upsert_page_document _ w _ E). unfold upsert_rule. rewrite Hurl.
    destruct (find_one (d_url d) (collection w)) as [e|]; [|reflexivity].
    intros eo ->. reflexivity.
  - exact upsert_all_stored_ts.
Qed.

(** C3, amended (required-field rejection).  When the original, the
    Japanese or the English title is the empty string, [upsert_page] writes
    nothing: the world, so the collection and its size, is unchanged.  It
    returns normally, except when the original title is non-empty and its
    timestamp is not an ISO-8601 timestamp: the parse of that timestamp, which
    runs after the original title's check and before the translated titles'
    checks, then raises [ValueError]. *)
Theorem upsert_page_rejects_empty_title (d : document) (w : world) :
  (title (d_orig d) = "" \/ title (d_ja_translated d) = "" \/ title (d_en_translated d) = "") ->
  upsert_page cfg iso d w =
  (if nonempty (title (d_orig d)) && negb (isSome (iso (timestamp (d_orig d))))
   then Err ValueError else Ok tt, w).
Proof.
  intros Hempty.
  unfold upsert_page, make_document, bind, get_key, nonempty.
  destruct (String.eqb_spec (title (d_orig d)) "") as [Ho|Ho]; simpl; [reflexivity|].
  destruct (iso (timestamp (d_orig d))) eqn:Hiso; simpl; [|reflexivity].
  destruct (String.eqb_spec (title (d_ja_translated d)) "") as [Hj|Hj]; simpl; [reflexivity|].
  destruct (String.eqb_spec (title (d_en_translated d)) "") as [He|He]; simpl; [reflexivity|].
  exfalso. intuition.
Qed.

(** C5 (upsert idempotence).  Running [upsert_page] twice on one payload
    leaves the world exactly as one run leaves it; for a valid payload, when
    the url was stored at most once before, it is stored exactly once
    after. *)
Theorem upsert_page_idempotent (d : document) (w : world) :
  snd (upsert_page cfg iso d (snd (upsert_page cfg iso d w))) = snd (upsert_page cfg iso d w) /\
  (valid_payload iso d = true -> (count_url (d_url d) (collection w) <= 1)%nat ->
   count_url (d_url d) (collection (snd (upsert_page cfg iso d w))) = 1%nat).
Proof.
  split.
  - unfold upsert_page at 2 3.
    destruct (make_document cfg iso d) as [[p|]|e] eqn:E; simpl;
      try (unfold upsert_page; rewrite E; reflexivity).
    destruct (make_document_some _ _ E) as (_ & Hurl & (sd & _ & Horig) & _).
    rewrite (upsert_page_document _ _ _ E).
    unfold upsert_rule at 2 3. rewrite Hurl.
    destruct (find_one (d_url d) (collection w)) as [e|] eqn:F.
    + destruct (orig e) as [eo|] eqn:O; simpl.
      * destruct (String.ltb (o_timestamp eo) (timestamp (d_orig d))) eqn:L; simpl.
        -- unfold upsert_rule. rewrite Hurl. simpl.
           rewrite find_one_update_first_hit by congruence.
           rewrite Horig. simpl. rewrite string_ltb_irrefl. reflexivity.
        -- unfold upsert_rule. rewrite Hurl, F, O, L. reflexivity.
      * unfold upsert_rule. rewrite Hurl, F, O. reflexivity.
    + unfold upsert_rule. rewrite Hurl. simpl.
      rewrite find_one_app, F, Hurl, String.eqb_refl, Horig. simpl.
      rewrite string_ltb_irrefl. reflexivity.
  - intros Hv Hle.
    destruct (make_document_valid _ Hv) as [p E].
    destruct (make_document_some _ _ E) as (_ & Hurl & _).
    rewrite (upsert_page_document _ _ _ E). unfold upsert_rule. rewrite Hurl.
    destruct (find_one (d_url d) (collection w)) as [e|] eqn:F.
    + pose proof (count_url_some _ _ _ F).
      destruct (orig e); simpl; [|lia].
      destruct (String.ltb _ _); simpl; [|lia].
      rewrite count_url_update_first by exact Hurl. lia.
    + simpl. rewrite count_url_app, count_url_none by exact F.
      rewrite Hurl, String.eqb_refl. reflexivity.
Qed.

(** C10 (whitespace-only titles).  Titles that are non-empty but made of
    whitespace characters (those of [str.isspace], non-ASCII ones included)
    pass the emptiness checks; the page is built with the stripped titles,
    which are empty strings, and is inserted when its url is not stored
    yet. *)
Theorem upsert_page_accepts_blank_titles (d : document) (w : world) :
  blank (title (d_orig d)) ->
  blank (title (d_ja_translated d)) ->
  blank (title (d_en_translated d)) ->
  valid_payload iso d = true ->
  exists document_,
    make_document cfg iso d = Ok (Some document_) /\
    option_map o_title (orig document_) = Some "" /\
    option_map t_title (ja_translated document_) = Some "" /\
    option_map t_title (en_translated document_) = Some "" /\
    (find_one (d_url d) (collection w) = None ->
     upsert_page cfg iso d w = (Ok tt, set_collection (collection w ++ [document_]) w)).
Proof.
  intros (no & _ & Fo & Eo) (nj & _ & Fj & Ej) (ne & _ & Fe & Ee) Hv.
  destruct (make_document_valid _ Hv) as [p E].
  destruct (make_document_some _ _ E) as (_ & Hurl & (sd & _ & Horig) & Hja & Hen & _).
  exists p. rewrite Horig, Hja, Hen. simpl.
  rewrite (strip_blank _ _ Fo Eo), (strip_blank _ _ Fj Ej), (strip_blank _ _ Fe Ee).
  repeat split; auto.
  intros F. rewrite (upsert_page_document _ _ _ E). unfold upsert_rule.
  rewrite Hurl, F. reflexivity.
Qed.

End Upsert.

(** ** Topic selection *)

Section Topics.

Variable cfg : Config.

Lemma Qgtb_iff (x y : Q) : Qgtb x y = true <-> y < x.
Proof.
  unfold Qgtb. rewrite negb_true_iff. split; intros H.
  - apply Qnot_le_lt. intros H'. apply Qle_bool_iff in H'. congruence.
  - destruct (Qle_bool x y) eqn:E; [|reflexivity].
    apply Qle_bool_iff in E. exfalso. exact (Qlt_not_le _ _ H E).
Qed.

(** Order of the [reverse=True] sort: non-increasing scores. *)
Definition score_ge (a b : string * Q) : Prop := snd b <= snd a.

Lemma score_ge_trans : Relations_1.Transitive score_ge.
Proof. intros a b c H1 H2. unfold score_ge in *. eapply Qle_trans; eassumption. Qed.

Lemma insert_desc_perm (x : string * Q) (l : list (string * Q)) :
  Permutation (insert_desc x l) (x :: l).
Proof.
  induction l as [|y l IH]; simpl; [reflexivity|].
  destruct (Qle_bool (snd y) (snd x)); [reflexivity|].
  etransitivity; [apply perm_skip, IH|apply perm_swap].
Qed.

Lemma sort_desc_perm (l : list (string * Q)) : Permutation (sort_desc l) l.
Proof.
  induction l as [|x l IH]; simpl; [reflexivity|].
  etransitivity; [apply insert_desc_perm|apply perm_skip, IH].
Qed.

Lemma insert_desc_hdrel (a x : string * Q) (l : list (string * Q)) :
  HdRel score_ge a l -> score_ge a x -> HdRel score_ge a (insert_desc x l).
Proof.
  destruct l as [|y l]; simpl; intros H Hx; [constructor; exact Hx|].
  destruct (Qle_bool (snd y) (snd x)); constructor; [exact Hx|].
  inversion H; assumption.
Qed.

Lemma insert_desc_sorted (x : string * Q) (l : list (string * Q)) :
  Sorted score_ge l -> Sorted score_ge (insert_desc x l).
Proof.
  induction l as [|y l IH]; simpl; intros H; [repeat constructor|].
  destruct (Qle_bool (snd y) (snd x)) eqn:E.
  - constructor; [exact H|]. constructor. apply Qle_bool_iff. exact E.
  - inversion H; subst. constructor; [auto|].
    apply insert_desc_hdrel; [assumption|].
    unfold score_ge. apply Qlt_le_weak, Qnot_le_lt.
    intros H'. apply Qle_bool_iff in H'. congruence.
Qed.

Lemma sort_desc_sorted (l : list (string * Q)) : StronglySorted score_ge (sort_desc l).
Proof.
  apply Sorted_StronglySorted; [exact score_ge_trans|].
  induction l as [|x l IH]; simpl; [constructor|].
  apply insert_desc_sorted, IH.
Qed.

Lemma keep_above_sub (l : list (string * Q)) (kv : string * Q) :
  In kv (keep_above cfg l) -> In kv l /\ SCORE_THRESHOLD cfg < snd kv.
Proof.
  induction l as [|[t s] l IH]; simpl; [tauto|].
  destruct (Qgtb s (SCORE_THRESHOLD cfg)) eqn:E; simpl; [|tauto].
  intros [<-|H]; [split; [auto|apply Qgtb_iff; exact E]|].
  destruct (IH H); auto.
Qed.

Lemma keep_above_complete (l : list (string * Q)) (kv : string * Q) :
  StronglySorted score_ge l -> In kv l -> SCORE_THRESHOLD cfg < snd kv ->
  In kv (keep_above cfg l).
Proof.
  induction l as [|[t s] l IH]; simpl; [tauto|].
  intros Hs Hin Hkv. inversion Hs as [|? ? Hs' Hall]; subst.
  destruct (Qgtb s (SCORE_THRESHOLD cfg)) eqn:E.
  - destruct Hin as [<-|Hin]; [left; reflexivity|right; auto].
  - exfalso. destruct Hin as [<-|Hin].
    + apply (Qgtb_iff _ _) in Hkv. simpl in Hkv. congruence.
    + rewrite Forall_forall in Hall. specialize (Hall _ Hin). unfold score_ge in Hall.
      simpl in Hall.
      assert (Hlt : SCORE_THRESHOLD cfg < s) by (eapply Qlt_le_trans; eassumption).
      apply Qgtb_iff in Hlt. congruence.
Qed.

(** The entries the dict comprehension of line 78 keeps. *)
Definition eligible (kv : string * Q) : bool :=
  str_mem (fst kv) (ITOPICS cfg) && Qgtb (snd kv) (1 # 2).

(** C2, amended.  [select_topics] keeps only entries of [ITOPICS] scored
    above 0.5; it is empty exactly when there is none; otherwise its first
    entry has the highest such score, every other kept entry scores above
    [SCORE_THRESHOLD], and every such entry scoring above [SCORE_THRESHOLD]
    is kept.  [upsert_page] stores this selection as the page's topics. *)
Theorem select_topics_spec (cb : dict Q) :
  (forall kv, In kv (select_topics cfg cb) ->
     In kv cb /\ str_mem (fst kv) (ITOPICS cfg) = true /\ 1 # 2 < snd kv) /\
  (select_topics cfg cb = [] <-> filter eligible cb = []) /\
  (forall first rest, select_topics cfg cb = first :: rest ->
     (forall kv, In kv (filter eligible cb) -> snd kv <= snd first) /\
     (forall kv, In kv rest -> SCORE_THRESHOLD cfg < snd kv)) /\
  (forall kv, In kv (filter eligible cb) -> SCORE_THRESHOLD cfg < snd kv ->
     In kv (select_topics cfg cb)) /\
  (forall iso d p, make_document cfg iso d = Ok (Some p) ->
     topics p = select_topics cfg (d_classes_bert d)).
Proof.
  pose proof (sort_desc_perm (filter eligible cb)) as Hperm.
  pose proof (sort_desc_sorted (filter eligible cb)) as Hsort.
  assert (Hin : forall kv, In kv (sort_desc (filter eligible cb)) <-> In kv (filter eligible cb))
    by (intros kv; split; apply Permutation_in; [exact Hperm|symmetry; exact Hperm]).
  unfold select_topics. fold eligible.
  split; [|split; [split|split; [|split]]].
  - intros kv H.
    assert (H' : In kv (sort_desc (filter eligible cb))).
    { destruct (sort_desc (filter eligible cb)) as [|f r]; [contradiction|].
      destruct H as [<-|H]; [left; reflexivity|right; apply (keep_above_sub r kv H)]. }
    apply Hin, filter_In in H'. destruct H' as [H1 H2].
    unfold eligible in H2. apply andb_true_iff in H2 as [H2 H3].
    apply Qgtb_iff in H3. auto.
  - intros H. destruct (filter eligible cb) as [|x l] eqn:F; [reflexivity|].
    exfalso. assert (Hx : In x (sort_desc (x :: l))) by (apply Hin; left; reflexivity).
    destruct (sort_desc (x :: l)); [contradiction|discriminate].
  - intros H. rewrite H. reflexivity.
  - intros first rest H.
    destruct (sort_desc (filter eligible cb)) as [|f r] eqn:S; [discriminate|].
    inversion H; subst. split; intros kv Hkv.
    + apply Hin in Hkv. destruct Hkv as [<-|Hkv]; [apply Qle_refl|].
      inversion Hsort as [|? ? _ Hall]. rewrite Forall_forall in Hall. exact (Hall _ Hkv).
    + apply (keep_above_sub r kv Hkv).
  - intros kv Hkv Hgt. apply Hin in Hkv.
    destruct (sort_desc (filter eligible cb)) as [|f r] eqn:S; [contradiction|].
    destruct Hkv as [<-|Hkv]; [left; reflexivity|right].
    inversion Hsort; subst. apply keep_above_complete; assumption.
  - intros iso d p H. apply (make_document_some cfg iso d p H).
Qed.

End Topics.

(** ** Dict updates *)

Lemma lookup_dict_set {V} (k k' : string) (v : V) (d : dict V) :
  lookup k (dict_set k' v d) = if String.eqb k k' then Some v else lookup k d.
Proof.
  induction d as [|[k0 v0] d IH]; simpl; [reflexivity|].
  destruct (String.eqb_spec k' k0) as [->|Hne]; simpl.
  - destruct (String.eqb k k0); reflexivity.
  - rewrite IH. destruct (String.eqb_spec k k0) as [->|Hk].
    + destruct (String.eqb_spec k0 k'); [congruence|reflexivity].
    + reflexivity.
Qed.

Lemma lookup_fold_dict_set {V} (f : string -> V) (l : list string) (acc : dict V)
    (t : string) :
  lookup t (fold_left (fun d it => dict_set it (f it) d) l acc) =
  if str_mem t l then Some (f t) else lookup t acc.
Proof.
  revert acc; induction l as [|it l IH]; intros acc; simpl; [reflexivity|].
  rewrite IH, lookup_dict_set. unfold str_mem in *. simpl.
  destruct (existsb (String.eqb t) l); rewrite ?orb_true_r; [reflexivity|].
  rewrite orb_false_r. destruct (String.eqb_spec t it) as [->|]; reflexivity.
Qed.

(** ** Snippets *)

Section Snippets.

Variable cfg : Config.

Lemma find_general_snippet_first (itopics : list string) (snippets : dict (list string)) :
  (forall pre t rest l,
     itopics = pre ++ t :: rest ->
     Forall (fun t' => lookup t' snippets = None) pre ->
     lookup t snippets = Some l ->
     find_general_snippet itopics snippets = match l with s :: _ => s | [] => "" end) /\
  ((forall t, In t itopics -> lookup t snippets = None) ->
   find_general_snippet itopics snippets = "").
Proof.
  split.
  - intros pre; revert itopics; induction pre as [|t0 pre IH];
      intros itopics t rest l -> Hpre Hl; simpl.
    + rewrite Hl. reflexivity.
    + inversion Hpre as [|? ? H0 Hpre']; subst. rewrite H0.
      eapply IH; [reflexivity|exact Hpre'|exact Hl].
  - induction itopics as [|t0 l IH]; intros H; simpl; [reflexivity|].
    rewrite (H t0 (or_introl eq_refl)). apply IH. intros t Ht. apply H. right. exact Ht.
Qed.

(** C6, amended.  For each topic of [ITOPICS], the reshaped snippet is the
    topic's first snippet, stripped, when the topic has one and it is not the
    empty string; otherwise it is the general snippet.  The general snippet
    comes from the first topic of [ITOPICS] that is a key of the mapping,
    whatever its list holds: its first snippet, unstripped, or the empty
    string when that list is empty; it is the empty string when no topic of
    [ITOPICS] is a key.  [upsert_page] reshapes the Japanese and the English
    snippets separately, each from its own mapping. *)
Theorem reshape_snippets_spec (snippets : dict (list string)) :
  (forall t, In t (ITOPICS cfg) ->
     lookup t (reshape_snippets cfg snippets) =
     Some (match dict_get t snippets [] with
           | s :: _ => if nonempty s then strip s
                       else find_general_snippet (ITOPICS cfg) snippets
           | [] => find_general_snippet (ITOPICS cfg) snippets
           end)) /\
  (forall pre t rest l,
     ITOPICS cfg = pre ++ t :: rest ->
     Forall (fun t' => lookup t' snippets = None) pre ->
     lookup t snippets = Some l ->
     find_general_snippet (ITOPICS cfg) snippets = match l with s :: _ => s | [] => "" end) /\
  ((forall t, In t (ITOPICS cfg) -> lookup t snippets = None) ->
   find_general_snippet (ITOPICS cfg) snippets = "") /\
  (forall iso d p, make_document cfg iso d = Ok (Some p) ->
     ja_snippets p = Some (reshape_snippets cfg (d_snippets d)) /\
     en_snippets p = Some (reshape_snippets cfg (d_snippets_en d))).
Proof.
  destruct (find_general_snippet_first (ITOPICS cfg) snippets) as [G1 G2].
  split; [|split; [exact G1|split; [exact G2|]]].
  - intros t Ht. unfold reshape_snippets.
    rewrite lookup_fold_dict_set.
    assert (Hm : str_mem t (ITOPICS cfg) = true).
    { unfold str_mem. apply existsb_exists. exists t. split; [exact Ht|apply String.eqb_refl]. }
    rewrite Hm. unfold reshaped_snippet.
    destruct (find_general_snippet (ITOPICS cfg) snippets) as [|c g] eqn:Eg;
      destruct (dict_get t snippets []) as [|s l]; simpl; try reflexivity;
      destruct (nonempty s); reflexivity.
  - intros iso d p H.
    destruct (make_document_some cfg iso d p H) as (_ & _ & _ & _ & _ & _ & Hj & He).
    auto.
Qed.

End Snippets.

(** ** [reshape_page] *)

Section Reshape.

Variable cfg : Config.

(** C7 (false-rumor override).  Whenever [reshape_page] produces a view,
    the view's false-rumor flag is 1 if the page's domain is ['fij.info']
    and the stored flag otherwise. *)
Theorem reshape_page_false_rumor (p : page) (lang : string) (v : view) :
  reshape_page cfg p lang = Ok v ->
  (domain p = Some "fij.info" -> v_is_about_false_rumor v = 1%Z) /\
  (domain p <> Some "fij.info" -> v_is_about_false_rumor v = is_about_false_rumor p).
Proof.
  unfold reshape_page, bind, get_key.
  destruct (mapM _ (topics p)); [|discriminate].
  destruct (lang_translated p lang); [|discriminate].
  destruct (lang_domain_label p lang); [|discriminate].
  destruct (domain p) as [dom|]; [|discriminate].
  destruct (ja_snippets p), (en_snippets p), (ja_translated p), (en_translated p),
    (ja_domain_label p), (en_domain_label p); try discriminate.
  intros H. inversion H; subst; clear H. simpl.
  destruct (String.eqb_spec dom "fij.info") as [->|Hne]; split; intros Hd;
    try reflexivity; congruence.
Qed.

End Reshape.

Lemma dict_set_in {V} (k : string) (v : V) (d : dict V) (i : string) (q : V) :
  In (i, q) (dict_set k v d) -> (i = k /\ q = v) \/ In (i, q) d.
Proof.
  induction d as [|[k0 v0] d IH]; simpl.
  - intros [H|[]]. inversion H. auto.
  - destruct (String.eqb_spec k k0) as [->|Hne]; simpl.
    + intros [H|H]; [inversion H; auto|auto].
    + intros [H|H]; [auto|]. destruct (IH H); auto.
Qed.

Lemma dict_set_here {V} (k : string) (v : V) (d : dict V) : In (k, v) (dict_set k v d).
Proof.
  induction d as [|[k0 v0] d IH]; simpl; [auto|].
  destruct (String.eqb_spec k k0) as [->|Hne]; simpl; auto.
Qed.

Lemma dict_set_keep {V} (k : string) (v : V) (d : dict V) (i : string) (q : V) :
  In (i, q) d -> i <> k -> In (i, q) (dict_set k v d).
Proof.
  induction d as [|[k0 v0] d IH]; simpl; [tauto|].
  intros [H|H] Hik.
  - inversion H; subst. destruct (String.eqb_spec k i); [congruence|]. left; reflexivity.
  - destruct (String.eqb k k0); simpl; auto.
Qed.

Lemma dict_set_keys {V} (k : string) (v : V) (d : dict V) (x : string) :
  In x (map fst (dict_set k v d)) -> x = k \/ In x (map fst d).
Proof.
  intros H. apply in_map_iff in H as [[i q] [Hx Hin]]. simpl in Hx. subst x.
  destruct (dict_set_in _ _ _ _ _ Hin) as [[-> _]|H]; [auto|].
  right. apply in_map_iff. exists (i, q). auto.
Qed.

Lemma dict_set_NoDup {V} (k : string) (v : V) (d : dict V) :
  NoDup (map fst d) -> NoDup (map fst (dict_set k v d)).
Proof.
  induction d as [|[k0 v0] d IH]; simpl; intros H.
  - constructor; [simpl; tauto|constructor].
  - inversion H as [|? ? Hk0 Hd]; subst.
    destruct (String.eqb_spec k k0) as [->|Hne]; simpl; [exact H|].
    constructor; [|auto].
    intros Hin. destruct (dict_set_keys _ _ _ _ Hin); [congruence|contradiction].
Qed.

Lemma find_one_update_first_map (u : string) (f : page -> page) (c : list page) :
  (forall p, url (f p) = url p) ->
  find_one u (update_first u f c) = option_map f (find_one u c).
Proof.
  intros Hf. induction c as [|p c IH]; simpl; [reflexivity|].
  destruct (String.eqb (url p) u) eqn:E; simpl.
  - rewrite Hf, E. reflexivity.
  - rewrite E. exact IH.
Qed.

(** ** [update_page] *)

Section Correction.

Variable cfg : Config.

(** An external topic code that line 277 can translate. *)
Definition translatable (e : string) : Prop :=
  exists i rest, lookup e (ETOPIC_ITOPICS_MAP cfg) = Some (i :: rest).

Lemma new_etopics_loop_spec (es : list string) (acc : dict Q) :
  (forall e, In e es -> translatable e) ->
  NoDup (map fst acc) -> (forall i q, In (i, q) acc -> q = 1) ->
  exists r, new_etopics_loop cfg acc es = Ok r /\ NoDup (map fst r) /\
    (forall i q, In (i, q) r <->
       q = 1 /\ ((exists q', In (i, q') acc) \/
                 exists e rest, In e es /\ lookup e (ETOPIC_ITOPICS_MAP cfg) = Some (i :: rest))).
Proof.
  revert acc; induction es as [|e es IH]; intros acc Hes Hnd Hone; simpl.
  - exists acc. split; [reflexivity|split; [exact Hnd|]].
    intros i q; split.
    + intros H. split; [eauto|left; eauto].
    + intros [-> [[q' H]|(e & rest & [] & _)]].
      rewrite (Hone _ _ H) in H. exact H.
  - destruct (Hes e (or_introl eq_refl)) as (i0 & rest0 & He).
    unfold bind, get_key. rewrite He.
    destruct (IH (dict_set i0 1 acc)) as (r & Hr & Hrnd & Hrin).
    + intros e' He'. apply Hes. right. exact He'.
    + apply dict_set_NoDup, Hnd.
    + intros i q H. destruct (dict_set_in _ _ _ _ _ H) as [[_ ->]|H']; [reflexivity|eauto].
    + exists r. split; [exact Hr|split; [exact Hrnd|]].
      intros i q. rewrite Hrin. split.
      * intros [-> [[q' Hq']|(e' & rest & Hin & Hl)]]; split; try reflexivity.
        -- destruct (dict_set_in _ _ _ _ _ Hq') as [[-> _]|H'].
           ++ right. exists e, rest0. split; [left; reflexivity|exact He].
           ++ left. eauto.
        -- right. exists e', rest. split; [right; exact Hin|exact Hl].
      * intros [-> [[q' Hq']|(e' & rest & [<-|Hin] & Hl)]]; split; try reflexivity.
        -- destruct (String.eqb_spec i i0) as [->|Hne].
           ++ left. exists 1. apply dict_set_here.
           ++ left. exists q'. apply dict_set_keep; assumption.
        -- rewrite He in Hl. inversion Hl; subst.
           left. exists 1. apply dict_set_here.
        -- right. exists e', rest. auto.
Qed.

(** The error the translation of one external topic raises, if any:
    [KeyError] for a code missing from [ETOPIC_ITOPICS_MAP], [IndexError] for
    an empty list there. *)
Definition topic_error (e : string) : exn :=
  match lookup e (ETOPIC_ITOPICS_MAP cfg) with
  | None => KeyError
  | Some _ => IndexError
  end.

Lemma new_etopics_loop_err (pre : list string) (e : string) (post : list string)
    (acc : dict Q) :
  (forall e', In e' pre -> translatable e') -> ~ translatable e ->
  new_etopics_loop cfg acc (pre ++ e :: post) = Err (topic_error e).
Proof.
  revert acc; induction pre as [|e0 pre IH]; intros acc Hpre He; simpl.
  - unfold bind, get_key, topic_error.
    destruct (lookup e (ETOPIC_ITOPICS_MAP cfg)) as [[|i rest]|] eqn:L; try reflexivity.
    exfalso. apply He. exists i, rest. exact L.
  - destruct (Hpre e0 (or_introl eq_refl)) as (i0 & rest0 & H0).
    unfold bind at 1, get_key at 1. rewrite H0. simpl.
    apply IH; [|exact He]. intros e' He'. apply Hpre. right. exact He'.
Qed.

(** C4, amended.  When every supplied external topic has a non-empty list
    of internal topics in [ETOPIC_ITOPICS_MAP], [update_page] succeeds;
    afterwards the page found for the url (created when missing) has
    [is_checked] 1, the supplied country as displayed country, the supplied
    flags, and as topics exactly the first internal topic of each supplied
    external topic, once each, with relevance 1.0; one line, the returned
    record (with the given timestamp), is appended to the log file and to no
    other file.  Otherwise the first external topic of the list that cannot
    be translated decides: [update_page] raises [KeyError] when that code is
    missing from the map and [IndexError] when its list is empty, and the
    world (collection and log files) is unchanged. *)
Theorem update_page_round_trip (url_ : string) (b1 b2 b3 : bool) (icountry : string)
    (etopics : list string) (notes path now : string) (w : world) :
  ((forall e, In e etopics -> translatable e) ->
  exists upd p,
    update_page cfg url_ b1 b2 b3 icountry etopics notes path now w =
      (Ok upd, snd (update_page cfg url_ b1 b2 b3 icountry etopics notes path now w)) /\
    find_one url_ (collection (snd (update_page cfg url_ b1 b2 b3 icountry etopics notes path now w)))
      = Some p /\
    is_checked p = 1%Z /\
    displayed_country p = icountry /\
    is_about_COVID_19 p = (if b1 then 1 else 0)%Z /\
    is_useful p = (if b2 then 1 else 0)%Z /\
    is_about_false_rumor p = (if b3 then 1 else 0)%Z /\
    NoDup (map fst (topics p)) /\
    (forall i q, In (i, q) (topics p) <->
       q = 1 /\ exists e rest, In e etopics /\
                 lookup e (ETOPIC_ITOPICS_MAP cfg) = Some (i :: rest)) /\
    files (snd (update_page cfg url_ b1 b2 b3 icountry etopics notes path now w)) path
      = files w path ++ [upd] /\
    (forall path', path' <> path ->
       files (snd (update_page cfg url_ b1 b2 b3 icountry etopics notes path now w)) path'
       = files w path') /\
    upd = {| u_url := url_;
             u_is_about_COVID_19 := if b1 then 1%Z else 0%Z;
             u_is_useful := if b2 then 1%Z else 0%Z;
             u_is_about_false_rumor := if b3 then 1%Z else 0%Z;
             u_new_country := icountry;
             u_new_topics := map fst (topics p);
             u_notes := notes;
             u_time := now |}) /\
  (forall pre e post,
     etopics = pre ++ e :: post ->
     (forall e', In e' pre -> translatable e') -> ~ translatable e ->
     update_page cfg url_ b1 b2 b3 icountry etopics notes path now w
     = (Err (topic_error e), w)).
Proof.
  split.
  2:{ intros pre e post -> Hpre He. unfold update_page, new_etopics_of.
      rewrite (new_etopics_loop_err pre e post [] Hpre He). reflexivity. }
  intros Hes.
  destruct (new_etopics_loop_spec etopics [] Hes (NoDup_nil _)
              (fun i q (H : In (i, q) []) => match H with end)) as (r & Hr & Hnd & Hin).
  unfold update_page, new_etopics_of. rewrite Hr. simpl.
  set (c := collection w).
  set (p' := match find_one url_ c with
             | Some p0 => set_correction (if b1 then 1%Z else 0%Z) (if b2 then 1%Z else 0%Z)
                            (if b3 then 1%Z else 0%Z) icountry r p0
             | None => fresh_correction url_ (if b1 then 1%Z else 0%Z) (if b2 then 1%Z else 0%Z)
                         (if b3 then 1%Z else 0%Z) icountry r
             end).
  eexists. exists p'.
  split; [reflexivity|].
  assert (Hfind : find_one url_
            (match find_one url_ c with
             | Some _ => update_first url_
                           (set_correction (if b1 then 1%Z else 0%Z) (if b2 then 1%Z else 0%Z)
                              (if b3 then 1%Z else 0%Z) icountry r) c
             | None => c ++ [fresh_correction url_ (if b1 then 1%Z else 0%Z)
                              (if b2 then 1%Z else 0%Z) (if b3 then 1%Z else 0%Z) icountry r]
             end) = Some p').
  { unfold p'. destruct (find_one url_ c) as [p0|] eqn:F.
    - rewrite find_one_update_first_map by reflexivity. rewrite F. reflexivity.
    - rewrite find_one_app, F. simpl. rewrite String.eqb_refl. reflexivity. }
  split; [exact Hfind|].
  assert (Htop : topics p' = r) by (unfold p'; destruct (find_one url_ c); reflexivity).
  unfold append_line. simpl.
  rewrite Htop.
  refine (conj _ (conj _ (conj _ (conj _ (conj _ (conj _ (conj _ (conj _ (conj _ _)))))))));
    try (unfold p'; destruct (find_one url_ c); reflexivity).
  - exact Hnd.
  - intros i q. rewrite Hin. split.
    + intros [Hq [[? []]|Hx]]. auto.
    + intros [Hq Hx]. auto.
  - rewrite String.eqb_refl. reflexivity.
  - intros path' Hne. destruct (String.eqb_spec path' path); [congruence|reflexivity].
Qed.

End Correction.

(** ** [classes] and [countries] *)

Lemma mapM_ok {A B} (f : A -> result B) (l : list A) (r : list B) :
  mapM f l = Ok r -> Forall2 (fun a b => f a = Ok b) l r.
Proof.
  revert r; induction l as [|x l IH]; intros r; simpl.
  - intros H. inversion H. constructor.
  - unfold bind. destruct (f x) as [y|e] eqn:Ex; [|discriminate].
    destruct (mapM f l) as [ys|e] eqn:El; [|discriminate].
    intros H. inversion H; subst. constructor; auto.
Qed.

Lemma fmap_pair_ok {A} (k : string) (m : result A) (kv : string * A) :
  fmap (pair k) m = Ok kv -> fst kv = k /\ m = Ok (snd kv).
Proof. destruct m; simpl; intros H; inversion H; auto. Qed.

Lemma non_all_keys {V} (d : dict V) : ~ In "all" (map fst (non_all d)).
Proof.
  unfold non_all. intros H. apply in_map_iff in H as [[k v] [Hk Hin]].
  apply filter_In in Hin as [_ Hb]. simpl in *. subst k. discriminate.
Qed.

Lemma Forall2_keys {V W} (R : string * V -> string * W -> Prop) (d : dict V) (m : dict W) :
  (forall kv kw, R kv kw -> fst kw = fst kv) -> Forall2 R d m ->
  map fst m = map fst d.
Proof. intros HR. induction 1 as [|? ? ? ? H _ IH]; simpl; [reflexivity|]. rewrite (HR _ _ H), IH. reflexivity. Qed.

Section Queries.

Variable cfg : Config.
Variable mongo_sort : list (string * Z) -> list page -> list page.
Variable es_search : string -> es_query -> list string.

(** C8 (dispatch of [classes]).  The selector ['search'] delegates to
    [search].  Otherwise, on the translated codes: with both selectors
    non-empty the result is the single page list of [get_pages]; with only
    the topic, a dict from each country of [ECOUNTRY_ICOUNTRIES_MAP] except
    ['all'] to its page list; with an empty topic (the country is then not
    used), a dict from each topic except ['all'] to a dict from each country
    except ['all'] to its page list. *)
Theorem classes_dispatch (c : list page) (etopic ecountry : string) (start limit : Z)
    (lang query : string) :
  (etopic = "search" ->
   classes cfg mongo_sort es_search c etopic ecountry start limit lang query
   = search cfg es_search c ecountry start limit lang query) /\
  (etopic <> "search" ->
   (trans_etopic cfg etopic <> "" -> trans_ecountry cfg ecountry <> "" ->
    classes cfg mongo_sort es_search c etopic ecountry start limit lang query
    = fmap RList (get_pages cfg mongo_sort c
                    (dict_get (trans_etopic cfg etopic) (ETOPIC_ITOPICS_MAP cfg) [])
                    (dict_get (trans_ecountry cfg ecountry) (ECOUNTRY_ICOUNTRIES_MAP cfg) [])
                    start limit lang)) /\
   (trans_etopic cfg etopic <> "" -> trans_ecountry cfg ecountry = "" ->
    forall r, classes cfg mongo_sort es_search c etopic ecountry start limit lang query = Ok r ->
    exists m, r = RMap m /\
      map fst m = map fst (non_all (ECOUNTRY_ICOUNTRIES_MAP cfg)) /\
      ~ In "all" (map fst m) /\
      Forall2 (fun kv kw => fst kw = fst kv /\
                 get_pages cfg mongo_sort c
                   (dict_get (trans_etopic cfg etopic) (ETOPIC_ITOPICS_MAP cfg) [])
                   (snd kv) start limit lang = Ok (snd kw))
        (non_all (ECOUNTRY_ICOUNTRIES_MAP cfg)) m) /\
   (trans_etopic cfg etopic = "" ->
    forall r, classes cfg mongo_sort es_search c etopic ecountry start limit lang query = Ok r ->
    exists n, r = RNested n /\
      map fst n = map fst (non_all (ETOPIC_ITOPICS_MAP cfg)) /\
      ~ In "all" (map fst n) /\
      Forall2 (fun tv tn => fst tn = fst tv /\
                 map fst (snd tn) = map fst (non_all (ECOUNTRY_ICOUNTRIES_MAP cfg)) /\
                 ~ In "all" (map fst (snd tn)) /\
                 Forall2 (fun kv kw => fst kw = fst kv /\
                            get_pages cfg mongo_sort c (snd tv) (snd kv) start limit lang
                            = Ok (snd kw))
                   (non_all (ECOUNTRY_ICOUNTRIES_MAP cfg)) (snd tn))
        (non_all (ETOPIC_ITOPICS_MAP cfg)) n)).
Proof.
  split.
  - intros ->. reflexivity.
  - intros Hs. unfold classes.
    destruct (String.eqb_spec etopic "search") as [|_]; [contradiction|].
    unfold nonempty.
    split; [|split].
    + intros Ht Hc.
      destruct (String.eqb_spec (trans_etopic cfg etopic) "") as [|_]; [contradiction|].
      destruct (String.eqb_spec (trans_ecountry cfg ecountry) "") as [|_]; [contradiction|].
      reflexivity.
    + intros Ht Hc r H.
      destruct (String.eqb_spec (trans_etopic cfg etopic) "") as [|_]; [contradiction|].
      rewrite Hc, String.eqb_refl in H. simpl in H.
      destruct (mapM _ _) as [m|e] eqn:Hm; simpl in H; inversion H; subst; clear H.
      exists m. apply mapM_ok in Hm.
      assert (Hf : Forall2 (fun kv kw => fst kw = fst kv /\
                 get_pages cfg mongo_sort c
                   (dict_get (trans_etopic cfg etopic) (ETOPIC_ITOPICS_MAP cfg) [])
                   (snd kv) start limit lang = Ok (snd kw))
               (non_all (ECOUNTRY_ICOUNTRIES_MAP cfg)) m).
      { eapply Forall2_impl; [|exact Hm]. intros kv kw H. apply fmap_pair_ok in H. exact H. }
      pose proof (Forall2_keys _ _ _ (fun _ _ H => proj1 H) Hf) as Hk.
      split; [reflexivity|split; [exact Hk|split; [rewrite Hk; apply non_all_keys|exact Hf]]].
    + intros Ht r H. rewrite Ht, String.eqb_refl in H. simpl in H.
      destruct (mapM _ _) as [n|e] eqn:Hn; simpl in H; inversion H; subst; clear H.
      exists n. apply mapM_ok in Hn.
      assert (Hf : Forall2 (fun tv tn => fst tn = fst tv /\
                 map fst (snd tn) = map fst (non_all (ECOUNTRY_ICOUNTRIES_MAP cfg)) /\
                 ~ In "all" (map fst (snd tn)) /\
                 Forall2 (fun kv kw => fst kw = fst kv /\
                            get_pages cfg mongo_sort c (snd tv) (snd kv) start limit lang
                            = Ok (snd kw))
                   (non_all (ECOUNTRY_ICOUNTRIES_MAP cfg)) (snd tn))
               (non_all (ETOPIC_ITOPICS_MAP cfg)) n).
      { eapply Forall2_impl; [|exact Hn]. intros tv tn H.
        apply fmap_pair_ok in H as [Hk Hm]. apply mapM_ok in Hm.
        assert (Hi : Forall2 (fun kv kw => fst kw = fst kv /\
                        get_pages cfg mongo_sort c (snd tv) (snd kv) start limit lang
                        = Ok (snd kw)) (non_all (ECOUNTRY_ICOUNTRIES_MAP cfg)) (snd tn)).
        { eapply Forall2_impl; [|exact Hm]. intros kv kw H. apply fmap_pair_ok in H. exact H. }
        pose proof (Forall2_keys _ _ _ (fun _ _ H => proj1 H) Hi) as Hik.
        split; [exact Hk|split; [exact Hik|split; [rewrite Hik; apply non_all_keys|exact Hi]]]. }
      assert (Hk : map fst n = map fst (non_all (ETOPIC_ITOPICS_MAP cfg))).
      { clear -Hf. induction Hf as [|? ? ? ? [H _] _ IH]; simpl; congruence. }
      unfold dict in *.
      split; [reflexivity|split; [exact Hk|split; [rewrite Hk; apply non_all_keys|exact Hf]]].
Qed.

(** C9 (unknown codes widen the query).  With both selectors non-empty
    after translation, a topic code missing from [ETOPIC_ITOPICS_MAP] (a
    country code missing from [ECOUNTRY_ICOUNTRIES_MAP]) becomes the empty
    list, and [classes] (for a topic other than the ['search'] sentinel) and
    [countries] return the single page list of [get_pages] on that empty
    list; [get_filter] then has no topic (country) clause, so the filter only
    asks for a pandemic page (in the countries given), and the sort is by date
    alone.  No error is raised and the list is not empty by construction. *)
Theorem unknown_code_widening (c : list page) (etopic ecountry : string) (start limit : Z)
    (lang query : string) :
  trans_etopic cfg etopic <> "" -> trans_ecountry cfg ecountry <> "" ->
  (lookup (trans_etopic cfg etopic) (ETOPIC_ITOPICS_MAP cfg) = None ->
   (etopic <> "search" ->
    classes cfg mongo_sort es_search c etopic ecountry start limit lang query
    = fmap RList (get_pages cfg mongo_sort c []
                    (dict_get (trans_ecountry cfg ecountry) (ECOUNTRY_ICOUNTRIES_MAP cfg) [])
                    start limit lang)) /\
   countries cfg mongo_sort c ecountry etopic start limit lang
   = fmap RList (get_pages cfg mongo_sort c []
                   (dict_get (trans_ecountry cfg ecountry) (ECOUNTRY_ICOUNTRIES_MAP cfg) [])
                   start limit lang)) /\
  (lookup (trans_ecountry cfg ecountry) (ECOUNTRY_ICOUNTRIES_MAP cfg) = None ->
   (etopic <> "search" ->
    classes cfg mongo_sort es_search c etopic ecountry start limit lang query
    = fmap RList (get_pages cfg mongo_sort c
                    (dict_get (trans_etopic cfg etopic) (ETOPIC_ITOPICS_MAP cfg) []) []
                    start limit lang)) /\
   countries cfg mongo_sort c ecountry etopic start limit lang
   = fmap RList (get_pages cfg mongo_sort c
                   (dict_get (trans_etopic cfg etopic) (ETOPIC_ITOPICS_MAP cfg) []) []
                   start limit lang)) /\
  (forall icountries p,
     matches (get_filter [] icountries) p =
     Z.eqb (is_about_COVID_19 p) 1 &&
     match icountries with [] => true | _ => str_mem (displayed_country p) icountries end) /\
  (forall itopics p,
     matches (get_filter itopics []) p =
     Z.eqb (is_about_COVID_19 p) 1 &&
     match itopics with [] => true | _ => existsb (fun t => dict_mem t (topics p)) itopics end) /\
  get_sort [] = [("page.orig.simple_timestamp", DESCENDING)].
Proof.
  intros Ht Hc.
  assert (Hb : nonempty (trans_etopic cfg etopic) && nonempty (trans_ecountry cfg ecountry) = true).
  { unfold nonempty.
    destruct (String.eqb_spec (trans_etopic cfg etopic) ""); [contradiction|].
    destruct (String.eqb_spec (trans_ecountry cfg ecountry) ""); [contradiction|].
    reflexivity. }
  assert (Hb' : nonempty (trans_ecountry cfg ecountry) && nonempty (trans_etopic cfg etopic) = true)
    by (rewrite andb_comm; exact Hb).
  split; [|split; [|split; [|split]]].
  - intros Hl. unfold classes, countries. rewrite Hb, Hb'.
    assert (E : dict_get (trans_etopic cfg etopic) (ETOPIC_ITOPICS_MAP cfg) [] = [])
      by (unfold dict_get; rewrite Hl; reflexivity).
    rewrite E. split; [|reflexivity].
    intros Hs. destruct (String.eqb_spec etopic "search"); [contradiction|reflexivity].
  - intros Hl. unfold classes, countries. rewrite Hb, Hb'.
    assert (E : dict_get (trans_ecountry cfg ecountry) (ECOUNTRY_ICOUNTRIES_MAP cfg) [] = [])
      by (unfold dict_get; rewrite Hl; reflexivity).
    rewrite E. split; [|reflexivity].
    intros Hs. destruct (String.eqb_spec etopic "search"); [contradiction|reflexivity].
  - intros [|ic ics] p; unfold matches, get_filter; simpl;
      rewrite ?andb_true_r; reflexivity.
  - intros [|it its] p; unfold matches, get_filter; simpl;
      rewrite ?andb_true_r; reflexivity.
  - reflexivity.
Qed.

End Queries.

(** * Further properties of the handler *)

(** ** Urls of the collection *)

Lemma find_one_none_iff (u : string) (c : list page) :
  find_one u c = None <-> ~ In u (map url c).
Proof.
  induction c as [|p c IH]; simpl; [tauto|].
  destruct (String.eqb_spec (url p) u) as [E|E]; split.
  - discriminate.
  - intros H. exfalso. apply H. left. exact E.
  - intros H [H'|H']; [contradiction|]. apply IH in H. contradiction.
  - intros H. apply IH. tauto.
Qed.

Lemma find_one_some_in (u : string) (c : list page) (p : page) :
  find_one u c = Some p -> In p c /\ url p = u.
Proof.
  induction c as [|q c IH]; simpl; [discriminate|].
  destruct (String.eqb_spec (url q) u) as [E|E].
  - intros H. inversion H; subst. auto.
  - intros H. destruct (IH H). auto.
Qed.

Lemma update_first_urls (u : string) (f : page -> page) (c : list page) :
  (forall p, url p = u -> url (f p) = u) ->
  map url (update_first u f c) = map url c.
Proof.
  intros Hf. induction c as [|p c IH]; simpl; [reflexivity|].
  destruct (String.eqb_spec (url p) u) as [E|E]; simpl.
  - rewrite (Hf p E), E; reflexivity.
  - rewrite IH. reflexivity.
Qed.

Lemma set_correction_url covid useful rumor icountry t (p : page) :
  url (set_correction covid useful rumor icountry t p) = url p.
Proof. reflexivity. Qed.

Lemma replay_line_urls (line : log_line) (w : world) :
  map url (collection (snd (replay_line line w))) = map url (collection w) /\
  files (snd (replay_line line w)) = files w.
Proof.
  destruct line as [| |o]; simpl; auto.
  destruct (l_url o) as [u|]; simpl; auto.
  destruct (find_one u (collection w)); simpl; auto.
  destruct (l_is_about_COVID_19 o), (l_is_useful o), (l_new_country o), (l_new_topics o);
    simpl; auto.
  split; [|reflexivity]. apply update_first_urls. intros q Hq. exact Hq.
Qed.

(** ** The dict of [new_etopics] *)

Lemma new_etopics_loop_ok (cfg : Config) (es : list string) (acc r : dict Q) :
  new_etopics_loop cfg acc es = Ok r ->
  NoDup (map fst acc) -> Forall (fun kv => snd kv = 1) acc ->
  NoDup (map fst r) /\ Forall (fun kv => snd kv = 1) r.
Proof.
  revert acc; induction es as [|e es IH]; intros acc; simpl.
  - intros H. inversion H; subst. auto.
  - unfold bind, get_key. destruct (lookup e (ETOPIC_ITOPICS_MAP cfg)) as [[|i0 rest]|];
      try discriminate.
    intros H Hnd Hone. apply (IH _ H).
    + apply dict_set_NoDup, Hnd.
    + apply Forall_forall. intros [i q] Hin.
      destruct (dict_set_in _ _ _ _ _ Hin) as [[_ ->]|H']; [reflexivity|].
      rewrite Forall_forall in Hone. exact (Hone _ H').
Qed.

Lemma dict_set_absent {V} (k : string) (v : V) (d : dict V) :
  ~ In k (map fst d) -> dict_set k v d = d ++ [(k, v)].
Proof.
  induction d as [|[k0 v0] d IH]; simpl; [reflexivity|].
  intros H. destruct (String.eqb_spec k k0) as [->|Hne]; [tauto|].
  rewrite IH; [reflexivity|tauto].
Qed.

(** Rebuilding a dict of 1.0 values from its keys gives it back. *)
Lemma fold_dict_set_keys (d acc : dict Q) :
  NoDup (map fst d) -> Forall (fun kv => snd kv = 1) d ->
  (forall k, In k (map fst d) -> ~ In k (map fst acc)) ->
  fold_left (fun a t => dict_set t 1 a) (map fst d) acc = acc ++ d.
Proof.
  revert acc; induction d as [|[k v] d IH]; intros acc Hnd Hone Hfresh; simpl.
  - rewrite app_nil_r. reflexivity.
  - inversion Hnd as [|? ? Hk Hd]; subst. inversion Hone as [|? ? Hv Hd1]; subst.
    simpl in Hv. subst v.
    rewrite dict_set_absent by (apply Hfresh; left; reflexivity).
    rewrite IH; [rewrite <- app_assoc; reflexivity|exact Hd|exact Hd1|].
    intros k' Hk' Hin. rewrite map_app in Hin. apply in_app_or in Hin as [Hin|[Heq|[]]].
    + exact (Hfresh k' (or_intror Hk') Hin).
    + simpl in Heq. subst k'. contradiction.
Qed.

Lemma topics_of_new_etopics (cfg : Config) (es : list string) (r : dict Q) :
  new_etopics_of cfg es = Ok r -> topics_of_new (map fst r) = r.
Proof.
  intros H. destruct (new_etopics_loop_ok cfg es [] r H (NoDup_nil _) (Forall_nil _))
    as [Hnd Hone].
  unfold topics_of_new. rewrite fold_dict_set_keys; auto.
Qed.

(** ** [main]: replaying the category-check log *)

Lemma replay_map_url (lines : list log_line) (w : world) :
  map url (collection (snd (replay lines w))) = map url (collection w) /\
  files (snd (replay lines w)) = files w.
Proof.
  revert w; induction lines as [|line lines IH]; intros w; simpl; [auto|].
  pose proof (replay_line_urls line w) as [H1 H2].
  destruct (replay_line line w) as [[u|e] w'] eqn:E; simpl in *.
  - destruct (IH w') as [H3 H4]. split; congruence.
  - auto.
Qed.

(** [main]'s replay of the category-check log never adds or removes a page,
    never changes a page's url and never writes a file, whatever the lines
    hold and wherever it stops. *)
Theorem replay_keeps_urls (lines : list log_line) (w : world) :
  map url (collection (snd (replay lines w))) = map url (collection w) /\
  files (snd (replay lines w)) = files w.
Proof. apply replay_map_url. Qed.

(** Replaying the log line that [update_page] wrote for a stored page
    reproduces the correction exactly: on the collection as it was before
    the call, the line's [$set] gives the collection [update_page] left.  For
    a url that was not stored, [update_page] creates a page but the replay
    of its line leaves the world as it is. *)
Theorem replay_reproduces_correction (cfg : Config) (url_ : string) (b1 b2 b3 : bool)
    (icountry : string) (etopics : list string) (notes path now : string) (w : world)
    (upd : updated) :
  fst (update_page cfg url_ b1 b2 b3 icountry etopics notes path now w) = Ok upd ->
  (find_one url_ (collection w) <> None ->
   replay_line (dumped upd) w =
   (Ok tt, set_collection
             (collection (snd (update_page cfg url_ b1 b2 b3 icountry etopics notes path now w)))
             w)) /\
  (find_one url_ (collection w) = None ->
   replay_line (dumped upd) w = (Ok tt, w) /\
   find_one url_ (collection (snd (update_page cfg url_ b1 b2 b3 icountry etopics notes path now w)))
   <> None).
Proof.
  unfold update_page. destruct (new_etopics_of cfg etopics) as [r|e] eqn:Hr; simpl;
    [|discriminate].
  intros H. inversion H; subst upd; clear H.
  unfold replay_line, dumped; simpl.
  split.
  - intros Hs. destruct (find_one url_ (collection w)) as [p|]; [|contradiction].
    rewrite (topics_of_new_etopics cfg etopics r Hr). reflexivity.
  - intros Hn. rewrite Hn. split; [reflexivity|].
    rewrite find_one_app, Hn. simpl. rewrite String.eqb_refl. discriminate.
Qed.

(** ** [main]: ingestion and the page count *)

Lemma upsert_page_files (cfg : Config) (iso : string -> option string) (d : document) (w : world) :
  files (snd (upsert_page cfg iso d w)) = files w.
Proof.
  unfold upsert_page. destruct (make_document cfg iso d) as [[p|]|e]; simpl; try reflexivity.
  unfold upsert_rule. destruct (find_one (url p) (collection w)) as [q|]; simpl; [|reflexivity].
  destruct (orig q) as [o|]; simpl; [|reflexivity].
  destruct (String.ltb (o_timestamp o) (timestamp (d_orig d))); reflexivity.
Qed.

Lemma upsert_page_err (cfg : Config) (iso : string -> option string) (d : document) (w : world)
    (e : exn) :
  fst (upsert_page cfg iso d w) = Err e -> snd (upsert_page cfg iso d w) = w.
Proof.
  unfold upsert_page. destruct (make_document cfg iso d) as [[p|]|e']; simpl; try reflexivity.
  unfold upsert_rule. destruct (find_one (url p) (collection w)) as [q|]; simpl; [|discriminate].
  destruct (orig q) as [o|]; simpl; [|reflexivity].
  destruct (String.ltb (o_timestamp o) (timestamp (d_orig d))); discriminate.
Qed.

Lemma upsert_all_cons (cfg : Config) (iso : string -> option string) (d : document)
    (ds : list document) (w : world) :
  upsert_all cfg iso (d :: ds) w = upsert_all cfg iso ds (snd (upsert_page cfg iso d w)).
Proof. reflexivity. Qed.

Lemma upsert_all_files (cfg : Config) (iso : string -> option string) (ds : list document)
    (w : world) :
  files (upsert_all cfg iso ds w) = files w.
Proof.
  revert w; induction ds as [|d ds IH]; intros w; [reflexivity|].
  rewrite upsert_all_cons, IH. apply upsert_page_files.
Qed.

Lemma upserts_ok_cons (cfg : Config) (iso : string -> option string) (d : document)
    (ds : list document) (w : world) :
  fst (upsert_page cfg iso d w) = Ok tt ->
  (forall pre d' post, ds = pre ++ d' :: post ->
     fst (upsert_page cfg iso d' (upsert_all cfg iso pre (snd (upsert_page cfg iso d w)))) = Ok tt) ->
  forall pre d' post, d :: ds = pre ++ d' :: post ->
    fst (upsert_page cfg iso d' (upsert_all cfg iso pre w)) = Ok tt.
Proof.
  intros H1 H2 [|x pre] d' post E; simpl in E; inversion E; subst.
  - exact H1.
  - rewrite upsert_all_cons. apply (H2 pre d' post). reflexivity.
Qed.

(** The ingestion loop of [main] runs [upsert_page] on the input pages in
    order and stops at the first one that raises.  Either no page raises,
    each upsert returning normally on the world the pages before it gave,
    and the loop ends with the world of all the upserts; or some page [d]
    raises while every page before it returned normally, and the loop ends
    with that exception and the world the pages before [d] gave ([d] itself
    writes nothing, and the pages after it are not read).  Ingestion never
    writes a log file. *)
Theorem ingest_stops_at_first_error (cfg : Config) (iso : string -> option string)
    (ds : list document) (w : world) :
  ((forall pre d post, ds = pre ++ d :: post ->
      fst (upsert_page cfg iso d (upsert_all cfg iso pre w)) = Ok tt) /\
   ingest cfg iso ds w = (Ok tt, upsert_all cfg iso ds w) \/
   exists pre d post e,
     ds = pre ++ d :: post /\
     (forall pre' d' post', pre = pre' ++ d' :: post' ->
        fst (upsert_page cfg iso d' (upsert_all cfg iso pre' w)) = Ok tt) /\
     fst (upsert_page cfg iso d (upsert_all cfg iso pre w)) = Err e /\
     ingest cfg iso ds w = (Err e, upsert_all cfg iso pre w)) /\
  files (snd (ingest cfg iso ds w)) = files w.
Proof.
  assert (H : ((forall pre d post, ds = pre ++ d :: post ->
                  fst (upsert_page cfg iso d (upsert_all cfg iso pre w)) = Ok tt) /\
               ingest cfg iso ds w = (Ok tt, upsert_all cfg iso ds w)) \/
   exists pre d post e,
     ds = pre ++ d :: post /\
     (forall pre' d' post', pre = pre' ++ d' :: post' ->
        fst (upsert_page cfg iso d' (upsert_all cfg iso pre' w)) = Ok tt) /\
     fst (upsert_page cfg iso d (upsert_all cfg iso pre w)) = Err e /\
     ingest cfg iso ds w = (Err e, upsert_all cfg iso pre w)).
  { revert w; induction ds as [|d ds IH]; intros w; cbn [ingest].
    { left. split; [|reflexivity]. intros [|x pre] d post E; discriminate. }
    rewrite upsert_all_cons.
    destruct (upsert_page cfg iso d w) as [[[]|e] w'] eqn:E.
    - assert (Hok : fst (upsert_page cfg iso d w) = Ok tt) by (rewrite E; reflexivity).
      destruct (IH w') as [[Hall H]|(pre & d' & post & e & -> & Hpre & H1 & H2)].
      + left. split; [|rewrite H; reflexivity].
        apply (upserts_ok_cons cfg iso d ds w Hok). rewrite E. exact Hall.
      + right. exists (d :: pre), d', post, e.
        rewrite upsert_all_cons, E. simpl. split; [reflexivity|]. split; [|auto].
        apply (upserts_ok_cons cfg iso d pre w Hok). rewrite E. exact Hpre.
    - right. exists [], d, ds, e.
      pose proof (upsert_page_err cfg iso d w e) as Hw. rewrite E in Hw. simpl in Hw.
      cbn [upsert_all fold_left app]. rewrite E, Hw by reflexivity.
      split; [reflexivity|]. split; [|auto]. intros [|x pre'] d' post' Hx; discriminate. }
  split; [exact H|].
  destruct H as [[_ H]|(pre & d & post & e & _ & _ & _ & H)]; rewrite H; apply upsert_all_files.
Qed.

Lemma replay_length (lines : list log_line) (w : world) :
  length (collection (snd (replay lines w))) = length (collection w).
Proof.
  rewrite <- !(length_map url). f_equal. apply replay_map_url.
Qed.

(** The page count [main] logs between its two loops is the number of pages
    stored when it ends: the replay of the category-check log changes no
    count. *)
Theorem main_logged_count (cfg : Config) (iso : string -> option string) (ds : list document)
    (lines : list log_line) (w : world) (n : nat) :
  fst (main cfg iso ds lines w) = Ok n ->
  n = length (collection (snd (main cfg iso ds lines w))).
Proof.
  unfold main. destruct (ingest cfg iso ds w) as [[u|e] w']; simpl; [|discriminate].
  pose proof (replay_length lines w') as Hl.
  destruct (replay lines w') as [[u'|e] w'']; simpl in *; [|discriminate].
  intros H. inversion H. congruence.
Qed.

(** ** Distinct urls *)

Lemma NoDup_snoc {A} (l : list A) (x : A) : NoDup l -> ~ In x l -> NoDup (l ++ [x]).
Proof.
  intros H Hx. apply Permutation_NoDup with (l := x :: l).
  - apply Permutation_cons_append.
  - constructor; assumption.
Qed.

Lemma upsert_page_nodup (cfg : Config) (iso : string -> option string) (d : document) (w : world) :
  NoDup (map url (collection w)) -> NoDup (map url (collection (snd (upsert_page cfg iso d w)))).
Proof.
  intros H. unfold upsert_page. destruct (make_document cfg iso d) as [[p|]|e]; simpl; auto.
  unfold upsert_rule. destruct (find_one (url p) (collection w)) as [q|] eqn:F; simpl.
  - destruct (orig q) as [o|]; simpl; [|exact H].
    destruct (String.ltb (o_timestamp o) (timestamp (d_orig d))); simpl; [|exact H].
    rewrite update_first_urls by auto. exact H.
  - rewrite map_app. apply NoDup_snoc; [exact H|]. apply find_one_none_iff, F.
Qed.

Lemma ingest_nodup (cfg : Config) (iso : string -> option string) (ds : list document) (w : world) :
  NoDup (map url (collection w)) -> NoDup (map url (collection (snd (ingest cfg iso ds w)))).
Proof.
  revert w; induction ds as [|d ds IH]; intros w H; simpl; [exact H|].
  pose proof (upsert_page_nodup cfg iso d w H) as H'.
  destruct (upsert_page cfg iso d w) as [[u|e] w']; simpl in *; auto.
Qed.

Lemma update_page_nodup (cfg : Config) (url_ : string) (b1 b2 b3 : bool) (icountry : string)
    (etopics : list string) (notes path now : string) (w : world) :
  NoDup (map url (collection w)) ->
  NoDup (map url (collection (snd (update_page cfg url_ b1 b2 b3 icountry etopics notes path now w)))).
Proof.
  intros H. unfold update_page. destruct (new_etopics_of cfg etopics) as [r|e]; simpl; [|exact H].
  destruct (find_one url_ (collection w)) as [q|] eqn:F.
  - rewrite update_first_urls by auto. exact H.
  - rewrite map_app. apply NoDup_snoc; [exact H|]. apply find_one_none_iff, F.
Qed.

(** No writer of the handler stores two pages with the same url: starting
    from a collection whose urls are distinct, [upsert_page], [update_page],
    the replay of the category-check log and the whole of [main] leave them
    distinct, also when they raise. *)
Theorem urls_stay_distinct (cfg : Config) (iso : string -> option string) (w : world) :
  NoDup (map url (collection w)) ->
  (forall d, NoDup (map url (collection (snd (upsert_page cfg iso d w))))) /\
  (forall url_ b1 b2 b3 icountry etopics notes path now,
     NoDup (map url (collection
       (snd (update_page cfg url_ b1 b2 b3 icountry etopics notes path now w))))) /\
  (forall lines, NoDup (map url (collection (snd (replay lines w))))) /\
  (forall ds lines, NoDup (map url (collection (snd (main cfg iso ds lines w))))).
Proof.
  intros H. split; [|split; [|split]].
  - intros d. apply upsert_page_nodup, H.
  - intros. apply update_page_nodup, H.
  - intros lines. rewrite (proj1 (replay_map_url lines w)). exact H.
  - intros ds lines. unfold main.
    pose proof (ingest_nodup cfg iso ds w H) as H1.
    destruct (ingest cfg iso ds w) as [[u|e] w']; simpl in *; [|exact H1].
    pose proof (proj1 (replay_map_url lines w')) as H2.
    destruct (replay lines w') as [[u'|e] w'']; simpl in *; rewrite H2; exact H1.
Qed.

(** ** Corrections and ingestion *)

Lemma update_first_twice (u : string) (f : page -> page) (c : list page) :
  (forall p, f (f p) = f p) -> (forall p, url (f p) = url p) ->
  update_first u f (update_first u f c) = update_first u f c.
Proof.
  intros Hff Hurl. induction c as [|p c IH]; simpl; [reflexivity|].
  destruct (String.eqb (url p) u) eqn:E; simpl.
  - rewrite Hurl, E, Hff. reflexivity.
  - rewrite E, IH. reflexivity.
Qed.

Lemma update_first_app_none (u : string) (f : page -> page) (c : list page) (q : page) :
  find_one u c = None -> url q = u ->
  update_first u f (c ++ [q]) = c ++ [f q].
Proof.
  intros H Hq. induction c as [|p c IH]; simpl in *.
  - rewrite Hq, String.eqb_refl. reflexivity.
  - destruct (String.eqb (url p) u); [discriminate|]. rewrite IH by exact H. reflexivity.
Qed.

(** Applying the same correction twice stores the same pages as applying it
    once (the log gets one line per call). *)
Theorem update_page_twice (cfg : Config) (url_ : string) (b1 b2 b3 : bool) (icountry : string)
    (etopics : list string) (notes path now : string) (w : world) :
  collection (snd (update_page cfg url_ b1 b2 b3 icountry etopics notes path now
                     (snd (update_page cfg url_ b1 b2 b3 icountry etopics notes path now w))))
  = collection (snd (update_page cfg url_ b1 b2 b3 icountry etopics notes path now w)).
Proof.
  unfold update_page at 2 3.
  destruct (new_etopics_of cfg etopics) as [r|e] eqn:Hr; simpl.
  2:{ unfold update_page. rewrite Hr. reflexivity. }
  unfold update_page. rewrite Hr. simpl.
  set (f := set_correction (if b1 then 1%Z else 0%Z) (if b2 then 1%Z else 0%Z)
              (if b3 then 1%Z else 0%Z) icountry r).
  destruct (find_one url_ (collection w)) as [q|] eqn:F.
  - rewrite find_one_update_first_map by reflexivity. rewrite F. simpl.
    apply update_first_twice; reflexivity.
  - rewrite find_one_app, F. simpl. rewrite String.eqb_refl.
    rewrite update_first_app_none by (exact F || reflexivity). reflexivity.
Qed.

(** A page is stored for the url, and it has no original. *)
Definition orphaned (u : string) (w : world) : Prop :=
  exists q, find_one u (collection w) = Some q /\ orig q = None.

Section Ingested.

Variable cfg : Config.
Variable iso : string -> option string.

Ltac destruct_matches :=
  repeat match goal with
         | |- context [match ?x with _ => _ end] => destruct x eqn:?
         | H : context [match ?x with _ => _ end] |- _ => destruct x eqn:?
         end.

Lemma make_document_unchecked (d : document) (p : page) :
  make_document cfg iso d = Ok (Some p) ->
  url p = d_url d /\ is_checked p = 0%Z /\ displayed_country p = d_country d /\
  orig p <> None.
Proof.
  unfold make_document, bind, get_key.
  destruct_matches; simpl; intros H; try discriminate;
    inversion H; subst; clear H; simpl; repeat split; discriminate.
Qed.

(** A page corrected by [update_page] loses the correction to the next
    ingestion of a strictly newer original for its url: the page is
    replaced entirely by the new [document_], unchecked again. *)
Theorem newer_ingest_discards_correction (d : document) (q : page) (o : orig_t) (p : page)
    (b1 b2 b3 : bool) (icountry : string) (etopics : list string) (notes path now : string)
    (w : world) (upd : updated) :
  find_one (d_url d) (collection w) = Some q -> orig q = Some o ->
  fst (update_page cfg (d_url d) b1 b2 b3 icountry etopics notes path now w) = Ok upd ->
  make_document cfg iso d = Ok (Some p) ->
  String.ltb (o_timestamp o) (timestamp (d_orig d)) = true ->
  find_one (d_url d)
    (collection (snd (upsert_page cfg iso d
                        (snd (update_page cfg (d_url d) b1 b2 b3 icountry etopics notes path now w)))))
  = Some p /\ is_checked p = 0%Z.
Proof.
  intros Hq Ho Hu Hp Hlt.
  destruct (make_document_unchecked d p Hp) as (Hurl & Hck & _ & _).
  split; [|exact Hck].
  revert Hu. unfold update_page. destruct (new_etopics_of cfg etopics) as [r|e]; simpl;
    [|discriminate]. intros _.
  rewrite Hq.
  unfold upsert_page. rewrite Hp. unfold upsert_rule. simpl. rewrite Hurl.
  rewrite find_one_update_first_map by reflexivity. rewrite Hq. simpl. rewrite Ho, Hlt.
  simpl. apply find_one_update_first_hit; [exact Hurl|].
  rewrite find_one_update_first_map by reflexivity. rewrite Hq. discriminate.
Qed.

Lemma find_one_set_correction (u u' : string) covid useful rumor icountry t (c : list page) :
  find_one u (update_first u' (set_correction covid useful rumor icountry t) c)
  = if String.eqb u' u
    then option_map (set_correction covid useful rumor icountry t) (find_one u c)
    else find_one u c.
Proof.
  destruct (String.eqb_spec u' u) as [->|Hne].
  - apply find_one_update_first_map. reflexivity.
  - apply find_one_update_first_other; [congruence|]. intros q Hq. exact Hq.
Qed.

Lemma orphaned_update_first (u u' : string) covid useful rumor icountry t (w : world) :
  orphaned u w ->
  orphaned u (set_collection
                (update_first u' (set_correction covid useful rumor icountry t) (collection w)) w).
Proof.
  intros (q & Hq & Ho). unfold orphaned. simpl. rewrite find_one_set_correction, Hq.
  destruct (String.eqb u' u); eexists; split; try reflexivity; exact Ho.
Qed.

Lemma orphaned_app (u : string) (q : page) (w : world) :
  orphaned u w -> orphaned u (set_collection (collection w ++ [q]) w).
Proof.
  intros (q0 & Hq & Ho). exists q0. simpl. rewrite find_one_app, Hq. auto.
Qed.

Lemma orphaned_upsert_page (u : string) (d : document) (w : world) :
  orphaned u w -> orphaned u (snd (upsert_page cfg iso d w)).
Proof.
  intros Hw. unfold upsert_page.
  destruct (make_document cfg iso d) as [[p|]|e]; simpl; try exact Hw.
  unfold upsert_rule. destruct (find_one (url p) (collection w)) as [q|] eqn:F.
  - destruct (orig q) as [o|] eqn:O; simpl; [|exact Hw].
    destruct (String.ltb (o_timestamp o) (timestamp (d_orig d))); simpl; [|exact Hw].
    destruct Hw as (q0 & Hq0 & Ho0). exists q0. split; [|exact Ho0].
    cbn [set_collection collection].
    rewrite find_one_update_first_other; [exact Hq0| |intros; reflexivity].
    intros ->. congruence.
  - apply orphaned_app, Hw.
Qed.

Lemma orphaned_update_page (u : string) url_ b1 b2 b3 icountry etopics notes path now (w : world) :
  orphaned u w ->
  orphaned u (snd (update_page cfg url_ b1 b2 b3 icountry etopics notes path now w)).
Proof.
  intros Hw. unfold update_page.
  destruct (new_etopics_of cfg etopics) as [r|e]; simpl; [|exact Hw].
  destruct (find_one url_ (collection w)).
  - exact (orphaned_update_first u url_ _ _ _ _ _ w Hw).
  - exact (orphaned_app u _ w Hw).
Qed.

Lemma orphaned_replay (u : string) (lines : list log_line) (w : world) :
  orphaned u w -> orphaned u (snd (replay lines w)).
Proof.
  revert w; induction lines as [|line lines IH]; intros w Hw; simpl; [exact Hw|].
  assert (H1 : orphaned u (snd (replay_line line w))).
  { destruct line as [| |o]; simpl; try exact Hw.
    destruct (l_url o) as [u0|]; simpl; [|exact Hw].
    destruct (find_one u0 (collection w)); simpl; [|exact Hw].
    destruct (l_is_about_COVID_19 o), (l_is_useful o), (l_new_country o), (l_new_topics o);
      simpl; try exact Hw.
    apply orphaned_update_first, Hw. }
  destruct (replay_line line w) as [[[]|e] w'] eqn:E; simpl in *; [apply IH|]; exact H1.
Qed.

Lemma orphaned_ingest (u : string) (ds : list document) (w : world) :
  orphaned u w -> orphaned u (snd (ingest cfg iso ds w)).
Proof.
  revert w; induction ds as [|d ds IH]; intros w Hw; cbn [ingest]; [exact Hw|].
  pose proof (orphaned_upsert_page u d w Hw) as H1.
  destruct (upsert_page cfg iso d w) as [[[]|e] w']; simpl in *; [apply IH|]; exact H1.
Qed.

Lemma orphaned_main (u : string) (ds : list document) (lines : list log_line) (w : world) :
  orphaned u w -> orphaned u (snd (main cfg iso ds lines w)).
Proof.
  intros Hw. unfold main. pose proof (orphaned_ingest u ds w Hw) as H1.
  destruct (ingest cfg iso ds w) as [[[]|e] w']; simpl in *; [|exact H1].
  pose proof (orphaned_replay u lines w' H1) as H2.
  destruct (replay lines w') as [[[]|e] w'']; exact H2.
Qed.

(** A url first corrected through [update_page] while no page had it gets
    a page without an original.  That state lasts: every later write keeps
    it ([upsert_page] of any page, [update_page] of any url, and the
    ingestion and replay of [main]), and while it holds every ingestion of a
    page for that url that passes validation raises [KeyError] and writes
    nothing. *)
Theorem correction_first_blocks_ingest (u : string) (b1 b2 b3 : bool) (icountry : string)
    (etopics : list string) (notes path now : string) (w : world) (upd : updated) :
  find_one u (collection w) = None ->
  fst (update_page cfg u b1 b2 b3 icountry etopics notes path now w) = Ok upd ->
  orphaned u (snd (update_page cfg u b1 b2 b3 icountry etopics notes path now w)) /\
  (forall w', orphaned u w' ->
     (forall d, orphaned u (snd (upsert_page cfg iso d w'))) /\
     (forall url_ c1 c2 c3 ic es nt pa nw,
        orphaned u (snd (update_page cfg url_ c1 c2 c3 ic es nt pa nw w'))) /\
     (forall ds lines, orphaned u (snd (main cfg iso ds lines w'))) /\
     (forall d p, d_url d = u -> make_document cfg iso d = Ok (Some p) ->
        upsert_page cfg iso d w' = (Err KeyError, w'))).
Proof.
  intros Hn Hu. split.
  - revert Hu. unfold update_page. destruct (new_etopics_of cfg etopics) as [r|e]; simpl;
      [|discriminate]. intros _. rewrite Hn.
    eexists. simpl. rewrite find_one_app, Hn. simpl. rewrite String.eqb_refl.
    split; reflexivity.
  - intros w' Hw. split; [|split; [|split]].
    + intros d. apply orphaned_upsert_page, Hw.
    + intros. apply orphaned_update_page, Hw.
    + intros ds lines. apply orphaned_main, Hw.
    + intros d p Hd Hp. destruct Hw as (q & Hq & Ho).
      destruct (make_document_unchecked d p Hp) as (Hurl & _ & _ & _).
      unfold upsert_page. rewrite Hp. unfold upsert_rule. rewrite Hurl, Hd, Hq, Ho.
      reflexivity.
Qed.

End Ingested.

(** ** [reshape_page] errors *)

Lemma mapM_err_key {A B} (f : A -> result B) (l : list A) (e : exn) :
  (forall a e', f a = Err e' -> e' = KeyError) -> mapM f l = Err e -> e = KeyError.
Proof.
  intros Hf. induction l as [|x l IH]; simpl; [discriminate|].
  unfold bind. destruct (f x) as [y|e'] eqn:E.
  - destruct (mapM f l) as [ys|e''] eqn:E'; [discriminate|]. intros H. inversion H; subst. auto.
  - intros H. inversion H; subst. exact (Hf _ _ E).
Qed.

Lemma mapM_in_err {A B} (f : A -> result B) (l : list A) (x : A) :
  (forall a e', f a = Err e' -> e' = KeyError) -> In x l -> f x = Err KeyError ->
  mapM f l = Err KeyError.
Proof.
  intros Hf. induction l as [|y l IH]; simpl; [tauto|].
  intros [->|Hin] Hx; unfold bind.
  - rewrite Hx. reflexivity.
  - destruct (f y) as [v|e'] eqn:E.
    + rewrite (IH Hin Hx). reflexivity.
    + rewrite (Hf _ _ E). reflexivity.
Qed.

Lemma get_key_err {A} (o : option A) (e : exn) : get_key o = Err e -> e = KeyError.
Proof. destruct o; simpl; intros H; inversion H; auto. Qed.

Lemma bind_err {A B} (m : result A) (k : A -> result B) (e : exn) :
  bind m k = Err e -> (m = Err e) \/ exists a, m = Ok a /\ k a = Err e.
Proof. destruct m; simpl; intros H; [right; eauto|left; inversion H; reflexivity]. Qed.

Lemma reshape_page_err (cfg : Config) (p : page) (lang : string) (e : exn) :
  reshape_page cfg p lang = Err e -> e = KeyError.
Proof.
  unfold reshape_page.
  repeat match goal with
         | |- bind ?m ?k = Err e -> _ =>
             let H := fresh in intros H; apply bind_err in H as [H|(? & _ & H)]; revert H
         end.
  all: try discriminate.
  all: try (apply get_key_err).
  intros H. eapply mapM_err_key; [|exact H].
  intros kv e' H'. simpl in H'.
  repeat (apply bind_err in H' as [H'|(? & _ & H')]; [apply get_key_err in H'; exact H'|]).
  discriminate.
Qed.

Lemma reshape_page_no_translated (cfg : Config) (p : page) (lang : string) :
  lang_translated p lang = None -> reshape_page cfg p lang = Err KeyError.
Proof.
  intros H. destruct (reshape_page cfg p lang) as [v|e] eqn:E.
  - exfalso. revert E. unfold reshape_page.
    destruct (mapM _ (topics p)); simpl; [|discriminate]. rewrite H. discriminate.
  - rewrite (reshape_page_err cfg p lang e E). reflexivity.
Qed.

(** [reshape_page] raises [KeyError] for a language other than ['ja'] and
    ['en'], and for the page [update_page] creates for a url with no stored
    page, whatever the language: that page has no translation, snippets,
    domain or label. *)
Theorem reshape_page_missing_fields (cfg : Config) (lang : string) :
  (forall p, lang <> "ja" -> lang <> "en" -> reshape_page cfg p lang = Err KeyError) /\
  (forall u covid useful rumor icountry new_etopics,
     reshape_page cfg (fresh_correction u covid useful rumor icountry new_etopics) lang
     = Err KeyError).
Proof.
  split.
  - intros p H1 H2. apply reshape_page_no_translated. unfold lang_translated.
    destruct (String.eqb_spec lang "ja"); [contradiction|].
    destruct (String.eqb_spec lang "en"); [contradiction|]. reflexivity.
  - intros. apply reshape_page_no_translated. unfold lang_translated.
    destruct (String.eqb lang "ja"); [reflexivity|]. destruct (String.eqb lang "en"); reflexivity.
Qed.

Section Listing.

Variable cfg : Config.
Variable mongo_sort : list (string * Z) -> list page -> list page.
Hypothesis mongo_sort_perm : forall s l, Permutation (mongo_sort s l) l.

(** Once [update_page] has created a page for an unknown url with the
    pandemic flag set, listing all pandemic pages with [get_pages] (no topic,
    no country, from 0, no limit) raises [KeyError] in either language. *)
Theorem uningested_correction_breaks_listing (u : string) (b2 b3 : bool) (icountry : string)
    (etopics : list string) (notes path now lang : string) (w : world) (upd : updated) :
  find_one u (collection w) = None ->
  fst (update_page cfg u true b2 b3 icountry etopics notes path now w) = Ok upd ->
  get_pages cfg mongo_sort
    (collection (snd (update_page cfg u true b2 b3 icountry etopics notes path now w)))
    [] [] 0 0 lang = Err KeyError.
Proof.
  intros Hn. unfold update_page. destruct (new_etopics_of cfg etopics) as [r|e]; simpl;
    [|discriminate]. intros _. rewrite Hn.
  set (q := fresh_correction u 1 (if b2 then 1%Z else 0%Z) (if b3 then 1%Z else 0%Z) icountry r).
  unfold get_pages, skip_limit. simpl.
  apply (mapM_in_err _ _ q).
  - intros a e'. apply reshape_page_err.
  - unfold find. apply (Permutation_in _ (Permutation_sym (mongo_sort_perm _ _))).
    apply filter_In. split; [apply in_or_app; right; left; reflexivity|reflexivity].
  - apply reshape_page_no_translated. unfold lang_translated.
    destruct (String.eqb lang "ja"); [reflexivity|]. destruct (String.eqb lang "en"); reflexivity.
Qed.

End Listing.

(** ** Displaying pages *)

Lemma bind_ok {A B} (m : result A) (k : A -> result B) (b : B) :
  bind m k = Ok b -> exists a, m = Ok a /\ k a = Ok b.
Proof. destruct m; simpl; [eauto|discriminate]. Qed.

Lemma mapM_ok_map {A B C} (f : A -> result B) (h : B -> C) (g : A -> C) (l : list A) :
  (forall a, In a l -> exists b, f a = Ok b /\ h b = g a) ->
  exists r, mapM f l = Ok r /\ map h r = map g l.
Proof.
  induction l as [|x l IH]; intros H; simpl; [exists []; auto|].
  destruct (H x (or_introl eq_refl)) as (b & Hb & Hh).
  destruct IH as (r & Hr & Hm); [intros a Ha; apply H; right; exact Ha|].
  exists (b :: r). rewrite Hb, Hr. simpl. rewrite Hh, Hm. auto.
Qed.

Lemma str_mem_In (x : string) (l : list string) : str_mem x l = true -> In x l.
Proof.
  unfold str_mem. intros H. apply existsb_exists in H as (y & Hy & Hxy).
  apply String.eqb_eq in Hxy. subst y. exact Hy.
Qed.

Lemma select_topics_in (cfg : Config) (cb : dict Q) (kv : string * Q) :
  In kv (select_topics cfg cb) -> In (fst kv) (ITOPICS cfg).
Proof.
  unfold select_topics.
  set (l := filter (fun kv => str_mem (fst kv) (ITOPICS cfg) && Qgtb (snd kv) (1 # 2)) cb).
  assert (Hl : forall kv, In kv (sort_desc l) -> In (fst kv) (ITOPICS cfg)).
  { intros kv' H. apply (Permutation_in _ (sort_desc_perm l)) in H.
    apply filter_In in H as [_ H]. apply andb_true_iff in H as [H _]. apply str_mem_In, H. }
  destruct (sort_desc l) as [|first rest] eqn:E; [simpl; tauto|].
  intros [<-|H].
  - apply Hl. left. reflexivity.
  - apply Hl. right. apply (keep_above_sub cfg rest kv H).
Qed.

Lemma reshape_snippets_keys (cfg : Config) (snippets : dict (list string)) (t : string) :
  In t (ITOPICS cfg) -> exists s, lookup t (reshape_snippets cfg snippets) = Some s.
Proof.
  intros H. unfold reshape_snippets. cbv zeta.
  rewrite lookup_fold_dict_set.
  assert (E : str_mem t (ITOPICS cfg) = true).
  { unfold str_mem. apply existsb_exists. exists t. split; [exact H|apply String.eqb_refl]. }
  rewrite E. eauto.
Qed.

Section Display.

Variable cfg : Config.
Variable iso : string -> option string.

Ltac destruct_matches :=
  repeat match goal with
         | |- context [match ?x with _ => _ end] => destruct x eqn:?
         | H : context [match ?x with _ => _ end] |- _ => destruct x eqn:?
         end.

Lemma make_document_labels (d : document) (p : page) :
  make_document cfg iso d = Ok (Some p) ->
  (exists s, domain p = Some s) /\ (exists s, ja_domain_label p = Some s) /\
  (exists s, en_domain_label p = Some s).
Proof.
  unfold make_document, bind, get_key.
  destruct_matches; simpl; intros H; try discriminate;
    inversion H; subst; clear H; simpl; (split; [|split]); eexists; reflexivity.
Qed.

(** A page stored by [upsert_page] can be shown in ['ja'] and in ['en']
    when every internal topic has an external code with a name in that
    language: [reshape_page] succeeds, keeps the stored relevance of each
    topic, in order, and shows that language's translated title. *)
Theorem ingested_page_displays (d : document) (p : page) (lang : string) :
  make_document cfg iso d = Ok (Some p) ->
  lang = "ja" \/ lang = "en" ->
  (forall t, In t (ITOPICS cfg) ->
     exists e n, lookup t (ITOPIC_ETOPIC_MAP cfg) = Some e /\
                 lookup2 (e, lang) (ETOPIC_TRANS_MAP cfg) = Some n) ->
  exists v, reshape_page cfg p lang = Ok v /\
    map relatedness (v_topics v) = map snd (topics p) /\
    lang_translated p lang = Some (v_translated v).
Proof.
  intros Hp Hlang Htr.
  destruct (make_document_some cfg iso d p Hp) as (_ & _ & _ & Hja & Hen & Htop & Hjs & Hes).
  destruct (make_document_labels d p Hp) as ([dom Hd] & [jl Hjl] & [el Hel]).
  assert (Hs : exists S, lang_snippets p lang = Some S /\
                 forall t, In t (ITOPICS cfg) -> exists s, lookup t S = Some s).
  { unfold lang_snippets. destruct Hlang as [->| ->]; simpl.
    - rewrite Hjs. eexists; split; [reflexivity|]. apply reshape_snippets_keys.
    - rewrite Hes. eexists; split; [reflexivity|]. apply reshape_snippets_keys. }
  destruct Hs as (S & HS & HSk).
  destruct (mapM_ok_map
              (fun kv =>
                 etopic <- get_key (lookup (fst kv) (ITOPIC_ETOPIC_MAP cfg)) ;;
                 name_ <- get_key (lookup2 (etopic, lang) (ETOPIC_TRANS_MAP cfg)) ;;
                 snippets <- get_key (lang_snippets p lang) ;;
                 snippet_ <- get_key (lookup (fst kv) snippets) ;;
                 Ok {| name := name_; snippet := snippet_; relatedness := snd kv |})
              relatedness snd (topics p)) as (r & Hr & Hrel).
  { intros kv Hkv. rewrite Htop in Hkv. apply select_topics_in in Hkv.
    destruct (Htr _ Hkv) as (e & n & He & Hn). destruct (HSk _ Hkv) as (s & Hs').
    eexists. rewrite He. simpl. rewrite Hn. simpl. rewrite HS. simpl. rewrite Hs'. simpl.
    split; reflexivity. }
  unfold reshape_page. rewrite Hr. simpl.
  assert (Ht : exists T, lang_translated p lang = Some T).
  { unfold lang_translated. destruct Hlang as [->| ->]; simpl; [rewrite Hja|rewrite Hen]; eauto. }
  assert (Hl : exists L, lang_domain_label p lang = Some L).
  { unfold lang_domain_label. destruct Hlang as [->| ->]; simpl; [rewrite Hjl|rewrite Hel]; eauto. }
  destruct Ht as [T HT]. destruct Hl as [L HL].
  rewrite HT, HL, Hd, Hjs, Hes, Hja, Hen, Hjl, Hel. simpl.
  eexists. split; [reflexivity|]. simpl. auto.
Qed.

End Display.

(** ** [classes] against [countries] *)

Lemma lookup_mapM_pair {A B} (g : A -> result B) (X : dict A) (m : dict B) :
  mapM (fun x => fmap (pair (fst x)) (g (snd x))) X = Ok m ->
  forall t r, lookup t m = Some r <-> exists a, lookup t X = Some a /\ g a = Ok r.
Proof.
  revert m; induction X as [|[k a0] X IH]; intros m; simpl.
  - intros H. inversion H; subst. intros t r. simpl.
    split; [discriminate|intros (a & Ha & _); discriminate].
  - unfold bind at 1. destruct (g a0) as [b0|e] eqn:Eg; simpl; [|discriminate].
    destruct (mapM (fun x => fmap (pair (fst x)) (g (snd x))) X) as [m'|e] eqn:Em;
      simpl; [|discriminate].
    intros H. inversion H; subst; clear H. intros t r. simpl.
    destruct (String.eqb t k).
    + split.
      * intros H. inversion H; subst. eauto.
      * intros (a & Ha & Hg). inversion Ha; subst. congruence.
    + apply IH. reflexivity.
Qed.

Lemma lookup_In {V} (t : string) (d : dict V) (a : V) : lookup t d = Some a -> In (t, a) d.
Proof.
  induction d as [|[k v] d IH]; simpl; [discriminate|].
  destruct (String.eqb_spec t k) as [->|_]; intros H; [inversion H; subst; left; reflexivity|].
  right. apply IH, H.
Qed.

Lemma mapM_ok_in {A B} (f : A -> result B) (l : list A) (m : list B) (x : A) :
  mapM f l = Ok m -> In x l -> exists y, f x = Ok y.
Proof.
  intros H. apply mapM_ok in H. induction H as [|a b l m Hab _ IH]; [intros []|].
  intros [->|Hx]; eauto.
Qed.

Lemma mapM_err_in {A B} (f : A -> result B) (l : list A) (e : exn) :
  mapM f l = Err e -> exists x, In x l /\ f x = Err e.
Proof.
  induction l as [|x l IH]; simpl; [discriminate|]. unfold bind.
  destruct (f x) as [y|e'] eqn:Ex.
  - destruct (mapM f l) as [ys|e'']; [discriminate|]. intros H. inversion H; subst.
    destruct (IH eq_refl) as (x' & Hx' & Hf). eauto.
  - intros H. inversion H; subst. eauto.
Qed.

Lemma mapM_in_some_err {A B} (f : A -> result B) (l : list A) (x : A) (e : exn) :
  In x l -> f x = Err e -> exists e', mapM f l = Err e'.
Proof.
  induction l as [|y l IH]; simpl; [tauto|]. intros [->|Hx] Hf; unfold bind.
  - rewrite Hf. eauto.
  - destruct (f y); [|eauto]. destruct (IH Hx Hf) as [e' ->]. eauto.
Qed.

Lemma fmap_err {A B} (h : A -> B) (m : result A) (e : exn) : fmap h m = Err e <-> m = Err e.
Proof. destruct m; simpl; split; intros H; inversion H; reflexivity. Qed.

(** A dict of dicts built with [mapM] holds, under the keys [t] then [k],
    the values of [G] at the entries of [t] and [k]. *)
Lemma nested_lookup {A B V} (G : A -> B -> result V) (X : dict A) (Y : dict B) m :
  mapM (fun x => fmap (pair (fst x))
                   (mapM (fun y => fmap (pair (fst y)) (G (snd x) (snd y))) Y)) X = Ok m ->
  forall t k l,
    (exists r, lookup t m = Some r /\ lookup k r = Some l) <->
    (exists a b, lookup t X = Some a /\ lookup k Y = Some b /\ G a b = Ok l).
Proof.
  intros H t k l.
  pose proof (lookup_mapM_pair (fun a => mapM (fun y => fmap (pair (fst y)) (G a (snd y))) Y)
                X m H) as HX.
  split.
  - intros (r & Hr & Hl). apply HX in Hr as (a & Ha & Hg).
    apply (lookup_mapM_pair (G a) Y r Hg) in Hl as (b & Hb & HG). eauto.
  - intros (a & b & Ha & Hb & HG).
    destruct (mapM_ok_in _ X m (t, a) H (lookup_In _ _ _ Ha)) as (y & Hy).
    apply fmap_pair_ok in Hy as [_ Hy].
    exists (snd y). split; [apply HX; eauto|].
    apply (lookup_mapM_pair (G a) Y (snd y) Hy). eauto.
Qed.

(** Such a dict of dicts fails exactly when one of the values of [G] fails;
    when all failures of [G] are the same exception, that is its error. *)
Lemma nested_err {A B V} (G : A -> B -> result V) (X : dict A) (Y : dict B) (E : exn) :
  (forall a b e, G a b = Err e -> e = E) ->
  forall e,
    mapM (fun x => fmap (pair (fst x))
                     (mapM (fun y => fmap (pair (fst y)) (G (snd x) (snd y))) Y)) X = Err e <->
    (exists x y e', In x X /\ In y Y /\ G (snd x) (snd y) = Err e') /\ e = E.
Proof.
  intros HG.
  assert (Hdir : forall e,
    mapM (fun x => fmap (pair (fst x))
                     (mapM (fun y => fmap (pair (fst y)) (G (snd x) (snd y))) Y)) X = Err e ->
    (exists x y e', In x X /\ In y Y /\ G (snd x) (snd y) = Err e') /\ e = E).
  { intros e H. apply mapM_err_in in H as (x & Hx & H). apply fmap_err in H.
    apply mapM_err_in in H as (y & Hy & H). apply fmap_err in H.
    split; [exists x, y, e; auto|]. exact (HG _ _ _ H). }
  intros e. split; [apply Hdir|].
  intros [(x & y & e' & Hx & Hy & Hxy) ->].
  assert (Hin : exists e'', mapM (fun y => fmap (pair (fst y)) (G (snd x) (snd y))) Y = Err e'').
  { apply (mapM_in_some_err _ Y y e' Hy). apply fmap_err. exact Hxy. }
  destruct Hin as [e'' Hin].
  destruct (mapM_in_some_err
              (fun x => fmap (pair (fst x))
                          (mapM (fun y => fmap (pair (fst y)) (G (snd x) (snd y))) Y))
              X x e'' Hx) as [e3 H3].
  { apply fmap_err. exact Hin. }
  rewrite H3. destruct (Hdir e3 H3) as [_ ->]. reflexivity.
Qed.

Lemma get_pages_err (cfg : Config) mongo_sort (c : list page) (itopics icountries : list string)
    (start limit : Z) (lang : string) (e : exn) :
  get_pages cfg mongo_sort c itopics icountries start limit lang = Err e ->
  e = if Z.ltb start 0 then ValueError else KeyError.
Proof.
  unfold get_pages, skip_limit. destruct (Z.ltb start 0); simpl.
  - intros H. inversion H. reflexivity.
  - apply mapM_err_key. intros p e'. apply reshape_page_err.
Qed.

Section Agree.

Variable cfg : Config.
Variable mongo_sort : list (string * Z) -> list page -> list page.
Variable es_search : string -> es_query -> list string.

(** [classes] and [countries] give the same answer for the same codes.
    With both codes translating to non-empty strings, they return the same
    page list.  With both translating to the empty string, [classes] nests
    topic then country and [countries] country then topic, over the same
    [get_pages] calls: they fail with the same exception ([ValueError] for a
    negative [start], [KeyError] otherwise) or both succeed, and then the
    list under [t] then [k] in the first is the list under [k] then [t] in
    the second. *)
Theorem classes_countries_agree (c : list page) (etopic ecountry : string) (start limit : Z)
    (lang query : string) :
  etopic <> "search" ->
  (nonempty (trans_etopic cfg etopic) = true -> nonempty (trans_ecountry cfg ecountry) = true ->
   classes cfg mongo_sort es_search c etopic ecountry start limit lang query
   = countries cfg mongo_sort c ecountry etopic start limit lang) /\
  (trans_etopic cfg etopic = "" -> trans_ecountry cfg ecountry = "" ->
   (forall e, classes cfg mongo_sort es_search c etopic ecountry start limit lang query = Err e <->
              countries cfg mongo_sort c ecountry etopic start limit lang = Err e) /\
   (forall e, classes cfg mongo_sort es_search c etopic ecountry start limit lang query = Err e ->
              e = if Z.ltb start 0 then ValueError else KeyError) /\
   (forall m1 m2,
      classes cfg mongo_sort es_search c etopic ecountry start limit lang query = Ok (RNested m1) ->
      countries cfg mongo_sort c ecountry etopic start limit lang = Ok (RNested m2) ->
      forall t k l,
        (exists r, lookup t m1 = Some r /\ lookup k r = Some l) <->
        (exists r, lookup k m2 = Some r /\ lookup t r = Some l))).
Proof.
  intros Hs. unfold classes, countries.
  destruct (String.eqb_spec etopic "search") as [E|_]; [contradiction|].
  split.
  - intros Ht Hc. rewrite Ht, Hc. reflexivity.
  - intros Ht Hc. rewrite Ht, Hc. simpl.
    set (X := non_all (ETOPIC_ITOPICS_MAP cfg)).
    set (Y := non_all (ECOUNTRY_ICOUNTRIES_MAP cfg)).
    set (G := fun its ics => get_pages cfg mongo_sort c its ics start limit lang).
    set (E := if Z.ltb start 0 then ValueError else KeyError).
    assert (HG : forall a b e, G a b = Err e -> e = E).
    { intros a b e. apply get_pages_err. }
    assert (HG' : forall b a e, (fun b a => G a b) b a = Err e -> e = E).
    { intros b a e. apply HG. }
    pose proof (nested_err G X Y E HG) as N1.
    pose proof (nested_err (fun b a => G a b) Y X E HG') as N2.
    cbv beta in N1, N2. unfold G in N1, N2.
    split; [|split].
    + intros e. rewrite !fmap_err, N1, N2.
      split; intros [(x & y & e' & H1 & H2 & H3) ->]; split; eauto 7.
    + intros e H. apply fmap_err, N1 in H as [_ ->]. reflexivity.
    + intros m1 m2 H1 H2 t k l.
      destruct (mapM _ X) as [r1|e1] eqn:R1; simpl in H1; inversion H1; subst; clear H1.
      destruct (mapM _ Y) as [r2|e2] eqn:R2; simpl in H2; inversion H2; subst; clear H2.
      rewrite (nested_lookup G X Y m1 R1 t k l).
      rewrite (nested_lookup (fun b a => G a b) Y X m2 R2 k t l).
      split; intros (a & b & Ha & Hb & Hab); exists b, a; auto.
Qed.

End Agree.

(** ** Replaying the log twice *)

(** The [$set] of one replayed line, on the page of its url. *)
Record corr := {
  c_url : string;
  c_covid : Z;
  c_useful : Z;
  c_rumor : Z;
  c_country : string;
  c_topics : dict Q
}.

Definition apply_corr (k : corr) (c : list page) : list page :=
  update_first (c_url k)
    (set_correction (c_covid k) (c_useful k) (c_rumor k) (c_country k) (c_topics k)) c.

Definition apply_corrs (ks : list corr) (c : list page) : list page :=
  fold_left (fun c k => apply_corr k c) ks c.

(** What [replay_line] does on a collection whose urls are [U]. *)
Definition line_corr (U : list string) (line : log_line) : result (option corr) :=
  match line with
  | Blank_line => Ok None
  | Invalid_line => Err ValueError
  | Json_line o =>
      match l_url o with
      | None => Err KeyError
      | Some u =>
          if str_mem u U then
            match l_is_about_COVID_19 o, l_is_useful o, l_new_country o, l_new_topics o with
            | Some covid, Some useful, Some new_country, Some new_topics =>
                Ok (Some {| c_url := u; c_covid := covid; c_useful := useful;
                            c_rumor := match l_is_about_false_rumor o with
                                       | Some r => r
                                       | None => 0%Z
                                       end;
                            c_country := new_country;
                            c_topics := topics_of_new new_topics |})
            | _, _, _, _ => Err KeyError
            end
          else Ok None
      end
  end.

Fixpoint replay_corrs (U : list string) (lines : list log_line) : result unit * list corr :=
  match lines with
  | [] => (Ok tt, [])
  | line :: lines' =>
      match line_corr U line with
      | Err e => (Err e, [])
      | Ok None => replay_corrs U lines'
      | Ok (Some k) => (fst (replay_corrs U lines'), k :: snd (replay_corrs U lines'))
      end
  end.

Lemma set_collection_self (w : world) : set_collection (collection w) w = w.
Proof. destruct w. reflexivity. Qed.

Lemma str_mem_iff (x : string) (l : list string) : str_mem x l = true <-> In x l.
Proof.
  split; [apply str_mem_In|]. intros H. unfold str_mem. apply existsb_exists.
  exists x. split; [exact H|apply String.eqb_refl].
Qed.

Lemma apply_corr_urls (k : corr) (c : list page) : map url (apply_corr k c) = map url c.
Proof. apply update_first_urls. intros p Hp. exact Hp. Qed.

Lemma apply_corrs_urls (ks : list corr) (c : list page) : map url (apply_corrs ks c) = map url c.
Proof.
  revert c; induction ks as [|k ks IH]; intros c; [reflexivity|].
  simpl. rewrite IH. apply apply_corr_urls.
Qed.

Lemma replay_line_corr (line : log_line) (w : world) :
  replay_line line w =
  match line_corr (map url (collection w)) line with
  | Err e => (Err e, w)
  | Ok None => (Ok tt, w)
  | Ok (Some k) => (Ok tt, set_collection (apply_corr k (collection w)) w)
  end.
Proof.
  destruct line as [| |o]; simpl; try reflexivity.
  destruct (l_url o) as [u|]; [|reflexivity].
  destruct (find_one u (collection w)) as [q|] eqn:F;
    destruct (str_mem u (map url (collection w))) eqn:S.
  - destruct (l_is_about_COVID_19 o), (l_is_useful o), (l_new_country o), (l_new_topics o);
      reflexivity.
  - exfalso. apply find_one_some_in in F as [Hq Hu].
    assert (In u (map url (collection w))) by (rewrite <- Hu; apply in_map, Hq).
    apply str_mem_iff in H. congruence.
  - exfalso. apply str_mem_iff in S. apply find_one_none_iff in F. contradiction.
  - reflexivity.
Qed.

Lemma replay_corrs_spec (lines : list log_line) (w : world) :
  replay lines w =
  (fst (replay_corrs (map url (collection w)) lines),
   set_collection (apply_corrs (snd (replay_corrs (map url (collection w)) lines))
                     (collection w)) w).
Proof.
  revert w; induction lines as [|line lines IH]; intros w; simpl.
  - rewrite set_collection_self. reflexivity.
  - rewrite replay_line_corr.
    destruct (line_corr (map url (collection w)) line) as [[k|]|e]; simpl.
    + rewrite IH. simpl. rewrite apply_corr_urls. reflexivity.
    + apply IH.
    + rewrite set_collection_self. reflexivity.
Qed.

Lemma update_first_ext (u : string) (f g : page -> page) (c : list page) :
  (forall p, f p = g p) -> update_first u f c = update_first u g c.
Proof.
  intros H. induction c as [|p c IH]; simpl; [reflexivity|].
  destruct (String.eqb (url p) u); rewrite ?H, ?IH; reflexivity.
Qed.

Lemma update_first_comp (u : string) (f g : page -> page) (c : list page) :
  (forall p, url (g p) = url p) ->
  update_first u f (update_first u g c) = update_first u (fun p => f (g p)) c.
Proof.
  intros Hg. induction c as [|p c IH]; simpl; [reflexivity|].
  destruct (String.eqb (url p) u) eqn:E; simpl.
  - rewrite Hg, E. reflexivity.
  - rewrite E, IH. reflexivity.
Qed.

Lemma update_first_comm (u u' : string) (f g : page -> page) (c : list page) :
  u <> u' -> (forall p, url (f p) = url p) -> (forall p, url (g p) = url p) ->
  update_first u f (update_first u' g c) = update_first u' g (update_first u f c).
Proof.
  intros Hne Hf Hg. induction c as [|p c IH]; simpl; [reflexivity|].
  destruct (String.eqb_spec (url p) u') as [E'|E'];
    destruct (String.eqb_spec (url p) u) as [E|E]; simpl.
  - congruence.
  - rewrite Hg. destruct (String.eqb_spec (url p) u); [congruence|].
    rewrite E'. rewrite String.eqb_refl. reflexivity.
  - rewrite Hf. rewrite E. rewrite String.eqb_refl.
    destruct (String.eqb_spec u u'); [congruence|]. reflexivity.
  - destruct (String.eqb_spec (url p) u); [congruence|].
    destruct (String.eqb_spec (url p) u'); [congruence|]. rewrite IH. reflexivity.
Qed.

Lemma apply_corr_absorb (k k' : corr) (c : list page) :
  c_url k = c_url k' -> apply_corr k (apply_corr k' c) = apply_corr k c.
Proof.
  intros H. unfold apply_corr. rewrite H, update_first_comp by reflexivity.
  apply update_first_ext. reflexivity.
Qed.

Lemma apply_corr_comm (k k' : corr) (c : list page) :
  c_url k <> c_url k' -> apply_corr k (apply_corr k' c) = apply_corr k' (apply_corr k c).
Proof. intros H. unfold apply_corr. apply update_first_comm; [exact H|reflexivity|reflexivity]. Qed.

(** A correction applied before a sequence of corrections either moves past
    it or is overwritten by a later correction of its url. *)
Lemma corrs_after (ks : list corr) (k : corr) :
  (forall c, apply_corrs ks (apply_corr k c) = apply_corr k (apply_corrs ks c)) \/
  (forall c, apply_corrs ks (apply_corr k c) = apply_corrs ks c).
Proof.
  induction ks as [|k1 ks IH]; [left; reflexivity|]. simpl.
  destruct (String.eqb_spec (c_url k1) (c_url k)) as [E|E].
  - right. intros c. rewrite apply_corr_absorb by exact E. reflexivity.
  - destruct IH as [IH|IH]; [left|right]; intros c; rewrite apply_corr_comm by exact E;
      apply IH.
Qed.

Lemma apply_corrs_idem (ks : list corr) (c : list page) :
  apply_corrs ks (apply_corrs ks c) = apply_corrs ks c.
Proof.
  revert c; induction ks as [|k ks IH] using rev_ind; intros c; [reflexivity|].
  unfold apply_corrs in *. rewrite !fold_left_app. simpl.
  fold (apply_corrs ks (apply_corr k (apply_corrs ks c))). fold (apply_corrs ks c).
  destruct (corrs_after ks k) as [H|H]; rewrite H.
  - fold (apply_corrs ks (apply_corrs ks c)). rewrite IH.
    apply apply_corr_absorb. reflexivity.
  - fold (apply_corrs ks (apply_corrs ks c)). rewrite IH. reflexivity.
Qed.

(** [main] replays the whole category-check log at every start.  Replaying
    it on the world a replay of it left changes nothing and ends the same
    way (normally or with the same exception): replaying twice is replaying
    once. *)
Theorem replay_idempotent (lines : list log_line) (w : world) :
  replay lines (snd (replay lines w)) = replay lines w.
Proof.
  rewrite (replay_corrs_spec lines w). simpl.
  rewrite replay_corrs_spec. simpl. rewrite apply_corrs_urls, apply_corrs_idem.
  reflexivity.
Qed.


(** ** What [get_pages] lists *)

Lemma reshape_page_fields (cfg : Config) (p : page) (lang : string) (v : view) :
  reshape_page cfg p lang = Ok v ->
  v_url v = url p /\ v_is_about_COVID_19 v = is_about_COVID_19 p /\
  v_displayed_country v = displayed_country p.
Proof.
  unfold reshape_page. intros H.
  repeat (apply bind_ok in H as (? & _ & H)).
  inversion H; subst. auto.
Qed.

Lemma In_skipn {A} (n : nat) (l : list A) (x : A) : In x (skipn n l) -> In x l.
Proof. intros H. rewrite <- (firstn_skipn n l). apply in_or_app. right. exact H. Qed.

Lemma In_firstn {A} (n : nat) (l : list A) (x : A) : In x (firstn n l) -> In x l.
Proof. intros H. rewrite <- (firstn_skipn n l). apply in_or_app. left. exact H. Qed.

Lemma matches_get_filter (itopics icountries : list string) (p : page) :
  matches (get_filter itopics icountries) p = true ->
  is_about_COVID_19 p = 1%Z /\
  (itopics <> [] -> exists t, In t itopics /\ dict_mem t (topics p) = true) /\
  (icountries <> [] -> In (displayed_country p) icountries).
Proof.
  unfold matches, get_filter. intros H.
  apply forallb_forall with (x := Is_about_COVID 1) in H as H1; [|left; reflexivity].
  simpl in H1. apply Z.eqb_eq in H1.
  split; [exact H1|split].
  - intros Hne. destruct itopics as [|t ts]; [contradiction|].
    apply forallb_forall with (x := Topics_exist (t :: ts)) in H; [|right; left; reflexivity].
    cbn [matches_clause] in H. apply existsb_exists in H. exact H.
  - intros Hne. destruct icountries as [|i is]; [contradiction|].
    apply forallb_forall with (x := Displayed_country_in (i :: is)) in H.
    + simpl in H. apply str_mem_In, H.
    + apply in_or_app. right. apply in_or_app. right. left. reflexivity.
Qed.

Section Pages.

Variable cfg : Config.
Variable mongo_sort : list (string * Z) -> list page -> list page.
Hypothesis mongo_sort_perm : forall s l, Permutation (mongo_sort s l) l.

(** [get_pages] raises [ValueError] for a negative [start].  Otherwise the
    pages it lists are stored pages about the pandemic, with a stored topic
    among the requested ones (when some are requested) and a displayed
    country among the requested ones (when some are requested); a non-zero
    [limit] bounds their number by its absolute value. *)
Theorem get_pages_sound (c : list page) (itopics icountries : list string) (start limit : Z)
    (lang : string) :
  ((start < 0)%Z -> get_pages cfg mongo_sort c itopics icountries start limit lang = Err ValueError) /\
  (forall vs, get_pages cfg mongo_sort c itopics icountries start limit lang = Ok vs ->
     (limit <> 0%Z -> (length vs <= Z.to_nat (Z.abs limit))%nat) /\
     Forall (fun v => exists p, In p c /\ reshape_page cfg p lang = Ok v /\ v_url v = url p /\
               v_is_about_COVID_19 v = 1%Z /\
               (itopics <> [] -> exists t, In t itopics /\ dict_mem t (topics p) = true) /\
               (icountries <> [] -> In (v_displayed_country v) icountries)) vs).
Proof.
  unfold get_pages, skip_limit. split.
  - intros Hs. rewrite (proj2 (Z.ltb_lt _ _) Hs). reflexivity.
  - intros vs. destruct (Z.ltb start 0); simpl; [discriminate|].
    set (l := find mongo_sort c (get_filter itopics icountries) (get_sort itopics)).
    set (docs := if Z.eqb limit 0 then skipn (Z.to_nat start) l
                 else firstn (Z.to_nat (Z.abs limit)) (skipn (Z.to_nat start) l)).
    intros H. apply mapM_ok in H.
    assert (Hdocs : forall p, In p docs -> In p (filter (matches (get_filter itopics icountries)) c)).
    { intros p Hp. unfold docs in Hp.
      assert (Hl : In p l).
      { destruct (Z.eqb limit 0); [apply (In_skipn _ _ _ Hp)|].
        apply In_firstn, In_skipn in Hp. exact Hp. }
      unfold l, find in Hl. exact (Permutation_in _ (mongo_sort_perm _ _) Hl). }
    split.
    + intros Hlim. rewrite <- (Forall2_length H). unfold docs.
      destruct (Z.eqb_spec limit 0); [contradiction|]. apply firstn_le_length.
    + clear -H Hdocs. induction H as [|p v docs' vs' Hpv _ IH]; constructor.
      * pose proof (Hdocs p (or_introl eq_refl)) as Hin. apply filter_In in Hin as [Hin Hm].
        destruct (reshape_page_fields cfg p lang v Hpv) as (Hu & Hc & Hd).
        destruct (matches_get_filter _ _ _ Hm) as (H1 & H2 & H3).
        exists p. rewrite Hc, Hd. auto 7.
      * apply IH. intros q Hq. apply Hdocs. right. exact Hq.
Qed.

End Pages.

(** ** Stored titles *)

(** Neither end of the string is a whitespace character of [str.isspace]. *)
Definition no_surrounding_space (s : string) : Prop :=
  forall n rest, py_isspace n = true ->
    list_ascii_of_string s <> utf8_encode n ++ rest /\
    list_ascii_of_string s <> rest ++ utf8_encode n.

(** The titles [upsert_page] stores carry no surrounding whitespace: none
    of them starts or ends with a character for which [str.isspace()]
    holds, non-ASCII whitespace such as U+00A0 or U+3000 included. *)
Theorem stored_titles_stripped (cfg : Config) (iso : string -> option string) (d : document)
    (p : page) :
  make_document cfg iso d = Ok (Some p) ->
  (exists o, orig p = Some o /\ no_surrounding_space (o_title o)) /\
  (exists t, ja_translated p = Some t /\ no_surrounding_space (t_title t)) /\
  (exists t, en_translated p = Some t /\ no_surrounding_space (t_title t)).
Proof.
  intros H. destruct (make_document_some cfg iso d p H) as (_ & _ & (sd & _ & Ho) & Hja & Hen & _).
  rewrite Ho, Hja, Hen.
  split; [|split]; eexists; (split; [reflexivity|]); intros n rest Hn; apply strip_no_space, Hn.
Qed.

(** ** Writes stay on their url *)

(** Each writer changes at most the page of its own url: [upsert_page] the
    page of the document's url, [update_page] the page of its [url], and the
    replay of a log line the page of the line's url. *)
Theorem writers_touch_only_their_url (cfg : Config) (iso : string -> option string) (u : string)
    (w : world) :
  (forall d, u <> d_url d ->
     find_one u (collection (snd (upsert_page cfg iso d w))) = find_one u (collection w)) /\
  (forall url_ b1 b2 b3 icountry etopics notes path now, u <> url_ ->
     find_one u (collection (snd (update_page cfg url_ b1 b2 b3 icountry etopics notes path now w)))
     = find_one u (collection w)) /\
  (forall o u', l_url o = Some u' -> u <> u' ->
     find_one u (collection (snd (replay_line (Json_line o) w))) = find_one u (collection w)).
Proof.
  split; [|split].
  - intros d Hne. unfold upsert_page.
    destruct (make_document cfg iso d) as [[p|]|e] eqn:E; simpl; try reflexivity.
    destruct (make_document_unchecked cfg iso d p E) as (Hurl & _).
    unfold upsert_rule. destruct (find_one (url p) (collection w)) as [q|]; simpl.
    + destruct (orig q) as [o|]; simpl; [|reflexivity].
      destruct (String.ltb (o_timestamp o) (timestamp (d_orig d))); simpl; [|reflexivity].
      apply find_one_update_first_other; [congruence|]. intros _ _. reflexivity.
    + rewrite find_one_app. destruct (find_one u (collection w)); [reflexivity|].
      destruct (String.eqb_spec (url p) u); [congruence|reflexivity].
  - intros url_ b1 b2 b3 icountry etopics notes path now Hne. unfold update_page.
    destruct (new_etopics_of cfg etopics) as [r|e]; simpl; [|reflexivity].
    destruct (find_one url_ (collection w)).
    + apply find_one_update_first_other; [exact Hne|]. intros q Hq. exact Hq.
    + rewrite find_one_app. destruct (find_one u (collection w)); [reflexivity|].
      simpl. destruct (String.eqb_spec url_ u); [congruence|reflexivity].
  - intros o u' Hu Hne. simpl. rewrite Hu.
    destruct (find_one u' (collection w)); simpl; [|reflexivity].
    destruct (l_is_about_COVID_19 o), (l_is_useful o), (l_new_country o), (l_new_topics o);
      simpl; try reflexivity.
    apply find_one_update_first_other; [exact Hne|]. intros q Hq. exact Hq.
Qed.

(** * Concrete instances *)

Definition demo_cfg : Config := {|
  ITOPICS := ["x"; "y"; "z"];
  ITOPIC_ETOPIC_MAP := [("x", "X"); ("y", "Y"); ("z", "Z")];
  ETOPIC_ITOPICS_MAP := [("all", ["x"; "y"; "z"]); ("X", ["x"]); ("Y", ["y"]); ("Z", ["z"])];
  ECOUNTRY_ICOUNTRIES_MAP := [("all", ["jp"; "us"]); ("jp", ["jp"]); ("us", ["us"])];
  ETOPIC_TRANS_MAP := [(("X", "ja"), "X"); (("Y", "ja"), "Y"); (("Z", "ja"), "Z");
                       (("X", "en"), "X-en"); (("Y", "en"), "Y-en"); (("Z", "en"), "Z-en")];
  ECOUNTRY_TRANS_MAP := [];
  SCORE_THRESHOLD := 7 # 10;
  RUMOR_THRESHOLD := 1 # 2;
  USEFUL_THRESHOLD := 1 # 2
|}.

(** A stand-in for [fromisoformat(...).date().isoformat()]: the date part of
    a timestamp of at least ten characters. *)
Definition demo_iso (ts : string) : option string :=
  if (String.length ts <? 10)%nat then None else Some (substring 0 10 ts).

Definition demo_sort (_ : list (string * Z)) (l : list page) : list page := l.

Definition demo_es (_ : string) (_ : es_query) : list string := [].

Definition demo_world : world := {| collection := []; files := fun _ => [] |}.

Definition demo_document (orig_title ja_title en_title : string) (cb : dict Q)
    (snippets : dict (list string)) : document := {|
  d_classes_is_about_COVID_19 := 1;
  d_classes_is_clear := 1;
  d_country := "jp";
  d_orig := {| title := orig_title; timestamp := "2020-04-01T10:00:00" |};
  d_ja_translated := {| title := ja_title; timestamp := "2020-04-01T10:05:00" |};
  d_en_translated := {| title := en_title; timestamp := "2020-04-01T10:06:00" |};
  d_url := "https://example.com/a";
  d_classes_bert := cb;
  d_snippets := snippets;
  d_snippets_en := snippets;
  d_domain := Some "fij.info";
  d_domain_label := Some "FIJ";
  d_domain_label_en := Some "FIJ"
|}.

Definition demo_scores : dict Q :=
  [("x", 9 # 10); ("y", 6 # 10); ("z", 3 # 10);
   ("is_useful", 8 # 10); ("is_about_false_rumor", 1 # 10)].

Definition low_scores : dict Q :=
  [("x", 2 # 5); ("y", 3 # 10); ("z", 1 # 5);
   ("is_useful", 8 # 10); ("is_about_false_rumor", 1 # 10)].

Definition demo_snippets : dict (list string) :=
  [("x", ["  about x "]); ("y", ["about y"])].

(** The example of the spec: scores [{x: 0.9, y: 0.6, z: 0.3}]. *)
Example select_topics_high_threshold :
  select_topics demo_cfg demo_scores = [("x", 9 # 10)].
Proof. reflexivity. Qed.

Example select_topics_low_threshold :
  select_topics {| ITOPICS := ITOPICS demo_cfg;
                   ITOPIC_ETOPIC_MAP := ITOPIC_ETOPIC_MAP demo_cfg;
                   ETOPIC_ITOPICS_MAP := ETOPIC_ITOPICS_MAP demo_cfg;
                   ECOUNTRY_ICOUNTRIES_MAP := ECOUNTRY_ICOUNTRIES_MAP demo_cfg;
                   ETOPIC_TRANS_MAP := ETOPIC_TRANS_MAP demo_cfg;
                   ECOUNTRY_TRANS_MAP := ECOUNTRY_TRANS_MAP demo_cfg;
                   SCORE_THRESHOLD := 1 # 2;
                   RUMOR_THRESHOLD := 1 # 2;
                   USEFUL_THRESHOLD := 1 # 2 |} demo_scores
  = [("x", 9 # 10); ("y", 6 # 10)].
Proof. reflexivity. Qed.

Example upsert_then_older :
  let d2 := demo_document "t" "t" "t" demo_scores demo_snippets in
  let d1 := {| d_classes_is_about_COVID_19 := 1; d_classes_is_clear := 0;
               d_country := "us";
               d_orig := {| title := "old"; timestamp := "2020-03-01T00:00:00" |};
               d_ja_translated := d_ja_translated d2; d_en_translated := d_en_translated d2;
               d_url := d_url d2; d_classes_bert := demo_scores;
               d_snippets := []; d_snippets_en := [];
               d_domain := None; d_domain_label := None; d_domain_label_en := None |} in
  collection (upsert_all demo_cfg demo_iso [d2; d1] demo_world)
  = collection (upsert_all demo_cfg demo_iso [d2] demo_world).
Proof. reflexivity. Qed.

Definition fij_page : page := {|
  country := Some "jp";
  displayed_country := "jp";
  orig := Some {| o_title := "t"; o_timestamp := "2020-04-01T10:00:00";
                  o_simple_timestamp := "2020-04-01" |};
  ja_translated := Some {| t_title := "t"; t_timestamp := "2020-04-01T10:05:00" |};
  en_translated := Some {| t_title := "t"; t_timestamp := "2020-04-01T10:06:00" |};
  url := "https://example.com/a";
  topics := [];
  ja_snippets := Some [];
  en_snippets := Some [];
  is_checked := 0%Z;
  is_about_COVID_19 := 1%Z;
  is_useful := 1%Z;
  is_clear := Some 1%Z;
  is_about_false_rumor := 0%Z;
  domain := Some "fij.info";
  ja_domain_label := Some "FIJ";
  en_domain_label := Some "FIJ"
|}.

(** Whitespace-only titles: U+3000 then U+00A0, a tab, and U+2028. *)
Definition ideo_nbsp : string := string_of_list_ascii (utf8_encode 12288 ++ utf8_encode 160).
Definition tab : string := String (ascii_of_nat 9) "".
Definition line_sep : string := string_of_list_ascii (utf8_encode 8232).

(** [demo_cfg] with an external topic whose list of internal topics is empty. *)
Definition gap_cfg : Config := {|
  ITOPICS := ITOPICS demo_cfg;
  ITOPIC_ETOPIC_MAP := ITOPIC_ETOPIC_MAP demo_cfg;
  ETOPIC_ITOPICS_MAP := ETOPIC_ITOPICS_MAP demo_cfg ++ [("E", [])];
  ECOUNTRY_ICOUNTRIES_MAP := ECOUNTRY_ICOUNTRIES_MAP demo_cfg;
  ETOPIC_TRANS_MAP := ETOPIC_TRANS_MAP demo_cfg;
  ECOUNTRY_TRANS_MAP := ECOUNTRY_TRANS_MAP demo_cfg;
  SCORE_THRESHOLD := SCORE_THRESHOLD demo_cfg;
  RUMOR_THRESHOLD := RUMOR_THRESHOLD demo_cfg;
  USEFUL_THRESHOLD := USEFUL_THRESHOLD demo_cfg
|}.

(** A page with a non-empty original title, an original timestamp that is
    not ISO-8601, and an empty Japanese title. *)
Definition bad_ts_document : document :=
  let d := demo_document "t" "" "t" demo_scores demo_snippets in
  {| d_classes_is_about_COVID_19 := d_classes_is_about_COVID_19 d;
     d_classes_is_clear := d_classes_is_clear d;
     d_country := d_country d;
     d_orig := {| title := "t"; timestamp := "bad" |};
     d_ja_translated := d_ja_translated d;
     d_en_translated := d_en_translated d;
     d_url := d_url d;
     d_classes_bert := d_classes_bert d;
     d_snippets := d_snippets d;
     d_snippets_en := d_snippets_en d;
     d_domain := d_domain d;
     d_domain_label := d_domain_label d;
     d_domain_label_en := d_domain_label_en d |}.

(** * Witnesses *)

Lemma upsert_page_rejects_empty_title_witness :
  let d := demo_document "" "t" "t" demo_scores demo_snippets in
  (title (d_orig d) = "" \/ title (d_ja_translated d) = "" \/ title (d_en_translated d) = "") /\
  upsert_page demo_cfg demo_iso d demo_world = (Ok tt, demo_world) /\
  (title (d_orig bad_ts_document) = "" \/ title (d_ja_translated bad_ts_document) = "" \/
   title (d_en_translated bad_ts_document) = "") /\
  upsert_page demo_cfg demo_iso bad_ts_document demo_world = (Err ValueError, demo_world).
Proof.
  cbv zeta.
  assert (H1 : title (d_orig (demo_document "" "t" "t" demo_scores demo_snippets)) = "" \/
               title (d_ja_translated (demo_document "" "t" "t" demo_scores demo_snippets)) = "" \/
               title (d_en_translated (demo_document "" "t" "t" demo_scores demo_snippets)) = "")
    by (left; reflexivity).
  assert (H2 : title (d_orig bad_ts_document) = "" \/
               title (d_ja_translated bad_ts_document) = "" \/
               title (d_en_translated bad_ts_document) = "")
    by (right; left; reflexivity).
  split; [exact H1|]. split; [exact (upsert_page_rejects_empty_title demo_cfg demo_iso _ demo_world H1)|].
  split; [exact H2|]. exact (upsert_page_rejects_empty_title demo_cfg demo_iso _ demo_world H2).
Defined.

Lemma upsert_page_accepts_blank_titles_witness :
  let d := demo_document ideo_nbsp tab line_sep demo_scores demo_snippets in
  blank (title (d_orig d)) /\
  blank (title (d_ja_translated d)) /\
  blank (title (d_en_translated d)) /\
  valid_payload demo_iso d = true /\
  exists document_,
    make_document demo_cfg demo_iso d = Ok (Some document_) /\
    option_map o_title (orig document_) = Some "" /\
    option_map t_title (ja_translated document_) = Some "" /\
    option_map t_title (en_translated document_) = Some "" /\
    (find_one (d_url d) (collection demo_world) = None ->
     upsert_page demo_cfg demo_iso d demo_world
     = (Ok tt, set_collection (collection demo_world ++ [document_]) demo_world)).
Proof.
  cbv zeta.
  assert (H1 : blank ideo_nbsp).
  { exists [12288; 160]%N. split; [discriminate|]. split; [repeat constructor|reflexivity]. }
  assert (H2 : blank tab).
  { exists [9]%N. split; [discriminate|]. split; [repeat constructor|reflexivity]. }
  assert (H3 : blank line_sep).
  { exists [8232]%N. split; [discriminate|]. split; [repeat constructor|reflexivity]. }
  split; [exact H1|]. split; [exact H2|]. split; [exact H3|].
  split; [reflexivity|].
  apply (upsert_page_accepts_blank_titles demo_cfg demo_iso); [exact H1|exact H2|exact H3|].
  reflexivity.
Defined.

Lemma reshape_page_false_rumor_witness :
  exists v, reshape_page demo_cfg fij_page "ja" = Ok v /\
    (domain fij_page = Some "fij.info" -> v_is_about_false_rumor v = 1%Z) /\
    (domain fij_page <> Some "fij.info" -> v_is_about_false_rumor v = is_about_false_rumor fij_page).
Proof.
  eexists. split; [reflexivity|].
  apply (reshape_page_false_rumor demo_cfg fij_page "ja"). reflexivity.
Defined.

Lemma update_page_round_trip_witness :
  (forall e, In e ["X"; "Y"; "X"] -> translatable demo_cfg e) /\
  (exists upd p,
    find_one "https://example.com/a"
      (collection (snd (update_page demo_cfg "https://example.com/a" true false true "us"
                          ["X"; "Y"; "X"] "checked" "log.jsonl" "2020-05-01T00:00:00"
                          demo_world))) = Some p /\
    fst (update_page demo_cfg "https://example.com/a" true false true "us" ["X"; "Y"; "X"]
           "checked" "log.jsonl" "2020-05-01T00:00:00" demo_world) = Ok upd /\
    is_checked p = 1%Z /\
    displayed_country p = "us") /\
  update_page gap_cfg "https://example.com/a" true false true "us" ["X"; "unknown"; "E"]
    "checked" "log.jsonl" "2020-05-01T00:00:00" demo_world = (Err KeyError, demo_world) /\
  update_page gap_cfg "https://example.com/a" true false true "us" ["X"; "E"; "unknown"]
    "checked" "log.jsonl" "2020-05-01T00:00:00" demo_world = (Err IndexError, demo_world).
Proof.
  assert (H : forall e, In e ["X"; "Y"; "X"] -> translatable demo_cfg e).
  { intros e [<-|[<-|[<-|[]]]]; do 2 eexists; reflexivity. }
  assert (HX : forall e, In e ["X"] -> translatable gap_cfg e).
  { intros e [<-|[]]; do 2 eexists; reflexivity. }
  assert (Hu : ~ translatable gap_cfg "unknown") by (intros (i & rest & Hl); discriminate).
  assert (HE : ~ translatable gap_cfg "E") by (intros (i & rest & Hl); discriminate).
  split; [exact H|].
  split.
  - destruct (proj1 (update_page_round_trip demo_cfg "https://example.com/a" true false true "us"
                       ["X"; "Y"; "X"] "checked" "log.jsonl" "2020-05-01T00:00:00" demo_world) H)
      as (upd & p & H1 & H2 & H3 & H4 & _).
    exists upd, p. rewrite H1. auto.
  - split.
    + exact (proj2 (update_page_round_trip gap_cfg "https://example.com/a" true false true "us"
                      ["X"; "unknown"; "E"] "checked" "log.jsonl" "2020-05-01T00:00:00" demo_world)
               ["X"] "unknown" ["E"] eq_refl HX Hu).
    + exact (proj2 (update_page_round_trip gap_cfg "https://example.com/a" true false true "us"
                      ["X"; "E"; "unknown"] "checked" "log.jsonl" "2020-05-01T00:00:00" demo_world)
               ["X"] "E" ["unknown"] eq_refl HX HE).
Defined.

Lemma unknown_code_widening_witness :
  trans_etopic demo_cfg "unknown" <> "" /\ trans_ecountry demo_cfg "jp" <> "" /\
  lookup (trans_etopic demo_cfg "unknown") (ETOPIC_ITOPICS_MAP demo_cfg) = None /\
  countries demo_cfg demo_sort [fij_page] "jp" "unknown" 0 10 "ja"
  = fmap RList (get_pages demo_cfg demo_sort [fij_page] [] ["jp"] 0 10 "ja").
Proof.
  assert (H1 : trans_etopic demo_cfg "unknown" <> "") by discriminate.
  assert (H2 : trans_ecountry demo_cfg "jp" <> "") by discriminate.
  assert (H3 : lookup (trans_etopic demo_cfg "unknown") (ETOPIC_ITOPICS_MAP demo_cfg) = None)
    by reflexivity.
  split; [exact H1|]. split; [exact H2|]. split; [exact H3|].
  exact (proj2 (proj1 (unknown_code_widening demo_cfg demo_sort demo_es [fij_page]
                         "unknown" "jp" 0 10 "ja" "" H1 H2) H3)).
Defined.

(** * Counterexamples *)

(** C2: when no internal topic scores above 0.5 the page gets no topic at
    all, although every ITOPICS entry is present in [classes.bert]. *)
Lemma select_topics_counterexample :
  exists p,
    make_document demo_cfg demo_iso (demo_document "t" "t" "t" low_scores demo_snippets)
    = Ok (Some p) /\ topics p = [].
Proof. eexists. split; reflexivity. Qed.

(** C4: an external topic code with no entry in [ETOPIC_ITOPICS_MAP] makes
    the correction raise [KeyError]; nothing is stored and nothing is logged. *)
Lemma update_page_unknown_topic_counterexample :
  update_page demo_cfg "https://example.com/a" true true false "jp" ["unknown"]
    "" "log.jsonl" "2020-05-01T00:00:00" demo_world = (Err KeyError, demo_world) /\
  find_one "https://example.com/a" (collection demo_world) = None.
Proof. split; reflexivity. Qed.

(** C3: a page whose original title is non-empty, whose original timestamp
    is not ISO-8601 and whose Japanese title is empty makes [upsert_page]
    raise [ValueError] (nothing is written). *)
Lemma upsert_page_rejects_empty_title_counterexample :
  title (d_ja_translated bad_ts_document) = "" /\
  upsert_page demo_cfg demo_iso bad_ts_document demo_world = (Err ValueError, demo_world).
Proof. split; reflexivity. Qed.

(** C6: a topic whose own snippet list is empty gets the empty string when
    it comes first in ITOPICS, not the snippet of a later topic. *)
Lemma reshape_snippets_counterexample :
  lookup "x" (reshape_snippets demo_cfg [("x", []); ("y", ["about y"])]) = Some "".
Proof. reflexivity. Qed.

(** * Instances of the further properties *)

Definition demo_doc : document := demo_document "t" "t" "t" demo_scores demo_snippets.

Definition ingested_world : world := upsert_all demo_cfg demo_iso [demo_doc] demo_world.

Definition newer_doc : document := {|
  d_classes_is_about_COVID_19 := 1;
  d_classes_is_clear := 1;
  d_country := "us";
  d_orig := {| title := "  newer  "; timestamp := "2020-05-01T09:00:00" |};
  d_ja_translated := {| title := "n"; timestamp := "2020-05-01T09:05:00" |};
  d_en_translated := {| title := "n"; timestamp := "2020-05-01T09:06:00" |};
  d_url := "https://example.com/a";
  d_classes_bert := demo_scores;
  d_snippets := demo_snippets;
  d_snippets_en := [];
  d_domain := None;
  d_domain_label := None;
  d_domain_label_en := None
|}.

Lemma demo_sort_perm : forall s l, Permutation (demo_sort s l) l.
Proof. intros s l. apply Permutation_refl. Qed.

Lemma replay_reproduces_correction_witness :
  exists upd,
    fst (update_page demo_cfg "https://example.com/a" true false true "us" ["X"]
           "checked" "log.jsonl" "2020-05-01T00:00:00" ingested_world) = Ok upd /\
    replay_line (dumped upd) ingested_world =
    (Ok tt, set_collection
              (collection (snd (update_page demo_cfg "https://example.com/a" true false true "us"
                                  ["X"] "checked" "log.jsonl" "2020-05-01T00:00:00"
                                  ingested_world)))
              ingested_world).
Proof.
  eexists. split; [reflexivity|].
  apply (replay_reproduces_correction demo_cfg "https://example.com/a" true false true "us"
           ["X"] "checked" "log.jsonl" "2020-05-01T00:00:00" ingested_world); [reflexivity|].
  vm_compute. discriminate.
Defined.

Lemma main_logged_count_witness :
  fst (main demo_cfg demo_iso [demo_doc; newer_doc]
         [Blank_line; dumped {| u_url := "https://example.com/a"; u_is_about_COVID_19 := 1;
                                u_is_useful := 0; u_is_about_false_rumor := 0;
                                u_new_country := "jp"; u_new_topics := ["y"];
                                u_notes := ""; u_time := "2020-05-02T00:00:00" |}]
         demo_world) = Ok 1%nat /\
  1%nat = length (collection (snd (main demo_cfg demo_iso [demo_doc; newer_doc]
         [Blank_line; dumped {| u_url := "https://example.com/a"; u_is_about_COVID_19 := 1;
                                u_is_useful := 0; u_is_about_false_rumor := 0;
                                u_new_country := "jp"; u_new_topics := ["y"];
                                u_notes := ""; u_time := "2020-05-02T00:00:00" |}]
         demo_world))).
Proof.
  split; [reflexivity|]. apply main_logged_count. reflexivity.
Defined.

Lemma urls_stay_distinct_witness :
  NoDup (map url (collection ingested_world)) /\
  NoDup (map url (collection (snd (upsert_page demo_cfg demo_iso newer_doc ingested_world)))).
Proof.
  assert (H : NoDup (map url (collection ingested_world))).
  { vm_compute. constructor; [simpl; tauto|constructor]. }
  split; [exact H|].
  exact (proj1 (urls_stay_distinct demo_cfg demo_iso ingested_world H) newer_doc).
Defined.

Lemma newer_ingest_discards_correction_witness :
  exists q o p upd,
    find_one (d_url newer_doc) (collection ingested_world) = Some q /\
    orig q = Some o /\
    fst (update_page demo_cfg (d_url newer_doc) true false false "us" ["Y"] ""
           "log.jsonl" "2020-04-15T00:00:00" ingested_world) = Ok upd /\
    make_document demo_cfg demo_iso newer_doc = Ok (Some p) /\
    String.ltb (o_timestamp o) (timestamp (d_orig newer_doc)) = true /\
    find_one (d_url newer_doc)
      (collection (snd (upsert_page demo_cfg demo_iso newer_doc
                          (snd (update_page demo_cfg (d_url newer_doc) true false false "us" ["Y"]
                                  "" "log.jsonl" "2020-04-15T00:00:00" ingested_world)))))
    = Some p /\ is_checked p = 0%Z.
Proof.
  do 4 eexists.
  split; [reflexivity|]. split; [reflexivity|]. split; [reflexivity|].
  split; [reflexivity|]. split; [reflexivity|].
  eapply newer_ingest_discards_correction; reflexivity.
Defined.

Lemma correction_first_blocks_ingest_witness :
  exists upd p,
    find_one (d_url demo_doc) (collection demo_world) = None /\
    fst (update_page demo_cfg (d_url demo_doc) true true false "jp" ["X"] ""
           "log.jsonl" "2020-03-01T00:00:00" demo_world) = Ok upd /\
    make_document demo_cfg demo_iso demo_doc = Ok (Some p) /\
    orphaned (d_url demo_doc)
      (snd (main demo_cfg demo_iso [newer_doc] []
              (snd (update_page demo_cfg (d_url demo_doc) true true false "jp" ["X"] ""
                      "log.jsonl" "2020-03-01T00:00:00" demo_world)))) /\
    upsert_page demo_cfg demo_iso demo_doc
      (snd (update_page demo_cfg (d_url demo_doc) true true false "jp" ["X"] ""
              "log.jsonl" "2020-03-01T00:00:00" demo_world))
    = (Err KeyError,
       snd (update_page demo_cfg (d_url demo_doc) true true false "jp" ["X"] ""
              "log.jsonl" "2020-03-01T00:00:00" demo_world)).
Proof.
  assert (H1 : find_one (d_url demo_doc) (collection demo_world) = None) by reflexivity.
  assert (H2 : exists upd, fst (update_page demo_cfg (d_url demo_doc) true true false "jp" ["X"] ""
                                  "log.jsonl" "2020-03-01T00:00:00" demo_world) = Ok upd)
    by (eexists; reflexivity).
  destruct H2 as [upd H2].
  assert (H3 : exists p, make_document demo_cfg demo_iso demo_doc = Ok (Some p))
    by (eexists; reflexivity).
  destruct H3 as [p H3].
  destruct (correction_first_blocks_ingest demo_cfg demo_iso (d_url demo_doc) true true false "jp"
              ["X"] "" "log.jsonl" "2020-03-01T00:00:00" demo_world upd H1 H2) as [Ho Hall].
  destruct (Hall _ Ho) as (_ & _ & Hmain & Hups).
  exists upd, p. split; [exact H1|]. split; [exact H2|]. split; [exact H3|].
  split; [apply Hmain|]. exact (Hups demo_doc p eq_refl H3).
Defined.

Lemma uningested_correction_breaks_listing_witness :
  (forall s l, Permutation (demo_sort s l) l) /\
  exists upd,
    find_one "https://example.com/b" (collection ingested_world) = None /\
    fst (update_page demo_cfg "https://example.com/b" true false false "jp" ["Z"] ""
           "log.jsonl" "2020-04-02T00:00:00" ingested_world) = Ok upd /\
    get_pages demo_cfg demo_sort
      (collection (snd (update_page demo_cfg "https://example.com/b" true false false "jp" ["Z"]
                          "" "log.jsonl" "2020-04-02T00:00:00" ingested_world)))
      [] [] 0 0 "ja" = Err KeyError.
Proof.
  split; [exact demo_sort_perm|].
  eexists. split; [reflexivity|]. split; [reflexivity|].
  eapply (uningested_correction_breaks_listing demo_cfg demo_sort demo_sort_perm); reflexivity.
Defined.

Lemma ingested_page_displays_witness :
  exists p,
    make_document demo_cfg demo_iso demo_doc = Ok (Some p) /\
    ("ja" = "ja" \/ "ja" = "en") /\
    (forall t, In t (ITOPICS demo_cfg) ->
       exists e n, lookup t (ITOPIC_ETOPIC_MAP demo_cfg) = Some e /\
                   lookup2 (e, "ja") (ETOPIC_TRANS_MAP demo_cfg) = Some n) /\
    exists v, reshape_page demo_cfg p "ja" = Ok v /\
      map relatedness (v_topics v) = map snd (topics p) /\
      lang_translated p "ja" = Some (v_translated v).
Proof.
  assert (Ht : forall t, In t (ITOPICS demo_cfg) ->
       exists e n, lookup t (ITOPIC_ETOPIC_MAP demo_cfg) = Some e /\
                   lookup2 (e, "ja") (ETOPIC_TRANS_MAP demo_cfg) = Some n).
  { intros t [<-|[<-|[<-|[]]]]; do 2 eexists; split; reflexivity. }
  eexists. split; [reflexivity|]. split; [left; reflexivity|]. split; [exact Ht|].
  apply (ingested_page_displays demo_cfg demo_iso demo_doc); [reflexivity|left; reflexivity|exact Ht].
Defined.

Lemma get_pages_sound_witness :
  (forall s l, Permutation (demo_sort s l) l) /\
  (((-1) < 0)%Z ->
   get_pages demo_cfg demo_sort (collection ingested_world) ["x"] ["jp"] (-1) 10 "ja"
   = Err ValueError).
Proof.
  split; [exact demo_sort_perm|].
  exact (proj1 (get_pages_sound demo_cfg demo_sort demo_sort_perm (collection ingested_world)
                  ["x"] ["jp"] (-1) 10 "ja")).
Defined.

Lemma stored_titles_stripped_witness :
  exists p,
    make_document demo_cfg demo_iso newer_doc = Ok (Some p) /\
    exists o, orig p = Some o /\ no_surrounding_space (o_title o).
Proof.
  assert (H : exists p, make_document demo_cfg demo_iso newer_doc = Ok (Some p))
    by (eexists; reflexivity).
  destruct H as [p H]. exists p. split; [exact H|].
  exact (proj1 (stored_titles_stripped demo_cfg demo_iso newer_doc p H)).
Defined.

Lemma classes_countries_agree_witness :
  "" <> "search" /\ "X" <> "search" /\
  classes demo_cfg demo_sort demo_es [fij_page] "X" "jp" 0 10 "ja" ""
  = countries demo_cfg demo_sort [fij_page] "jp" "X" 0 10 "ja" /\
  (forall e, classes demo_cfg demo_sort demo_es [fij_page] "" "" (-1) 10 "ja" "" = Err e ->
             e = ValueError).
Proof.
  assert (H0 : "" <> "search") by discriminate.
  assert (H1 : "X" <> "search") by discriminate.
  split; [exact H0|]. split; [exact H1|]. split.
  - exact (proj1 (classes_countries_agree demo_cfg demo_sort demo_es [fij_page] "X" "jp" 0 10
                    "ja" "" H1) eq_refl eq_refl).
  - exact (proj1 (proj2 (proj2 (classes_countries_agree demo_cfg demo_sort demo_es [fij_page]
                                  "" "" (-1) 10 "ja" "" H0) eq_refl eq_refl))).
Defined.
